(** * CustomLS: a shallow embedding of [main.c] and its verified properties

    The program is a small [ls]: it walks directories, prints one line
    per entry (bare or long format), optionally recurses, optionally
    only counts, and accumulates failures into a bit mask that becomes
    the process exit status.

    The embedding keeps the shape of the C code.  The four file-scope
    variables ([err_code], [file_count], [count_only],
    [human_readable]) and standard output are the fields of one state
    record that every function threads.  The operating system
    ([lstat], [opendir]/[readdir], [getpwuid], [getgrgid], [readlink],
    the clock, [strftime], [strerror]) is a record of functions: the
    file system is taken to be unchanged for the duration of one run.
    The recursion of [list_dir] follows path strings, not a tree, and
    is therefore bounded by an explicit depth. *)

From Stdlib Require Import ZArith List String Ascii Bool Lia QArith Lqa.
From Stdlib Require Import DecimalString Permutation.
Import ListNotations.

Local Open Scope string_scope.
Local Open Scope Z_scope.

(** ** C integers and [printf] conversions *)

(** Conversion of a value to a two's-complement signed integer of
    [w] bits, as an assignment or a variadic argument read back with
    the wrong signedness does. *)
Definition to_signed (w : Z) (x : Z) : Z :=
  let m := x mod 2 ^ w in
  if m <? 2 ^ (w - 1) then m else m - 2 ^ w.

(** Conversion to an unsigned integer of [w] bits. *)
Definition to_unsigned (w : Z) (x : Z) : Z := x mod 2 ^ w.

(** [%d], [%ld], [%lld]: decimal digits with a leading minus sign. *)
Definition dec (z : Z) : string := NilZero.string_of_int (Z.to_int z).

Fixpoint spaces (n : nat) : string :=
  match n with
  | O => EmptyString
  | S k => String " " (spaces k)
  end.

(** [%-Ns]: left-justified in a field of at least [w] characters. *)
Definition pad_right (w : nat) (s : string) : string :=
  s ++ spaces (w - String.length s).

(** [%Ns]: right-justified in a field of at least [w] characters. *)
Definition pad_left (w : nat) (s : string) : string :=
  spaces (w - String.length s) ++ s.

(** What [snprintf(buf, n, ...)] and [strncpy(buf, s, n - 1)] followed
    by a terminator leave in a buffer of [n] bytes: at most [n - 1]
    characters. *)
Definition truncate (n : nat) (s : string) : string := substring 0 n s.

(** ** The operating system *)

(** The fields of [struct stat] that the program reads. *)
Record stat := mkStat {
  st_mode : Z;
  st_nlink : Z;
  st_uid : Z;
  st_gid : Z;
  st_size : Z;
  st_mtime : Z
}.

(** A system call either succeeds with a value or fails with [errno]. *)
Inductive result (A : Type) : Type :=
| Ok (a : A)
| Err (errno : Z).
Arguments Ok {A} a.
Arguments Err {A} errno.

Record os_model := mkOS {
  lstat : string -> result stat;
  (** [opendir] followed by [readdir] until the stream is exhausted:
      the names in the order the stream yields them. *)
  opendir : string -> result (list string);
  getpwuid : Z -> option string;
  getgrgid : Z -> option string;
  readlink : string -> option string;
  (** [timespec_get(&now, TIME_UTC)], seconds. *)
  now_sec : Z;
  (** [strftime] applied to [localtime] of a time, for a format. *)
  strftime : string -> Z -> string;
  strerror : Z -> string
}.

(** Values of [<errno.h>] and [<sys/stat.h>] on Linux; the headers are
    not part of the repository. *)
Definition EPERM : Z := 1.
Definition ENOENT : Z := 2.
Definition EACCES : Z := 13.

Definition S_IFMT : Z := 61440.   (* 0170000 *)
Definition S_IFDIR : Z := 16384.  (* 0040000 *)
Definition S_IFREG : Z := 32768.  (* 0100000 *)
Definition S_IFLNK : Z := 40960.  (* 0120000 *)
Definition S_IRUSR : Z := 256.
Definition S_IWUSR : Z := 128.
Definition S_IXUSR : Z := 64.
Definition S_IRGRP : Z := 32.
Definition S_IWGRP : Z := 16.
Definition S_IXGRP : Z := 8.
Definition S_IROTH : Z := 4.
Definition S_IWOTH : Z := 2.
Definition S_IXOTH : Z := 1.

Definition S_ISDIR (mode : Z) : bool := Z.land mode S_IFMT =? S_IFDIR.
Definition S_ISREG (mode : Z) : bool := Z.land mode S_IFMT =? S_IFREG.
Definition S_ISLNK (mode : Z) : bool := Z.land mode S_IFMT =? S_IFLNK.

(** ** Standard output *)

(** Standard output is a sequence of complete lines.  Every line the
    program can print is one of five shapes; [render_line] gives the
    text. *)
Inductive out_line :=
| LHeader (dirname : string)                    (* "%s:\n" *)
| LBlank                                        (* "\n" *)
| LEntry (text : string)                        (* the line of one entry *)
| LDiag (what path : string) (errno : Z)        (* PRINT_ERROR *)
| LTotal (n : Z).                               (* "%d\n" of file_count *)

(** ** Program state: the file-scope variables and standard output *)

(** [file_count] is an [int] that is only ever incremented; the model
    counts in [Z], which agrees with the C program on every run that
    lists fewer than 2^31 entries (beyond that the increment is
    undefined in C). *)
Record state := mkState {
  err_code : Z;
  file_count : Z;
  count_only : bool;
  human_readable : bool;
  out : list out_line
}.

Definition print (l : out_line) (s : state) : state :=
  mkState (err_code s) (file_count s) (count_only s) (human_readable s)
          (out s ++ [l]).

Definition or_err_code (bits : Z) (s : state) : state :=
  mkState (Z.lor (err_code s) bits) (file_count s) (count_only s)
          (human_readable s) (out s).

Definition incr_file_count (s : state) : state :=
  mkState (err_code s) (file_count s + 1) (count_only s)
          (human_readable s) (out s).

Section Program.

Variable os : os_model.

(** PRINT_ERROR writes with [printf], that is to standard output. *)
Definition render_line (l : out_line) : string :=
  match l with
  | LHeader d => d ++ ":"
  | LBlank => EmptyString
  | LEntry t => t
  | LDiag what path e =>
      "ls: " ++ what ++ " " ++ path ++ ": " ++ strerror os e
  | LTotal n => dec n
  end.

(** ** [handle_error] *)

(** [saved_errno] is the value the failing call left in [errno]. *)
Definition handle_error (what_happened fullname : string) (saved_errno : Z)
    (s : state) : state :=
  let s := print (LDiag what_happened fullname saved_errno) s in
  let s := or_err_code 64 s in
  if saved_errno =? ENOENT then or_err_code 8 s
  else if (saved_errno =? EACCES) || (saved_errno =? EPERM) then or_err_code 16 s
  else or_err_code 32 s.

(** ** [test_file] and [is_dir] *)

Definition test_file (pathandname : string) (s : state) : bool * state :=
  match lstat os pathandname with
  | Err e => (false, handle_error "cannot access" pathandname e s)
  | Ok _ => (true, s)
  end.

Definition is_dir (pathandname : string) (s : state) : bool * state :=
  match lstat os pathandname with
  | Err e => (false, handle_error "No File Found" "is_dir" e s)
  | Ok sb => (S_ISDIR (st_mode sb), s)
  end.

Definition ftype_to_str (mode : Z) : string :=
  if S_ISDIR mode then "d"
  else if S_ISREG mode then "-"
  else if S_ISLNK mode then "l"
  else "?".

(** ** [date_string] *)

(** [difference] is a [time_t] (64-bit signed) compared with an
    [unsigned long long] constant, hence converted to unsigned. *)
Definition date_format (now ts : Z) : string :=
  if now <? ts then "%b %e %Y"
  else
    let difference := to_signed 64 (now - ts) in
    if to_unsigned 64 difference <? 31556952 then "%b %e %H:%M"
    else "%b %e %Y".

Definition date_string (ts : Z) : string :=
  strftime os (date_format (now_sec os) ts) ts.

(** ** [format_size_human] *)

(** [double human_size = size]: a [long long] rounded to the nearest
    value with a 53-bit significand, ties to even.  The result is
    again an integer. *)
Definition double_of_long_long (size : Z) : Z :=
  let a := Z.abs size in
  let e := Z.log2 a - 52 in
  if e <=? 0 then size
  else
    let q := a / 2 ^ e in
    let r := a mod 2 ^ e in
    let half := 2 ^ (e - 1) in
    let q' := if r <? half then q
              else if half <? r then q + 1
              else if Z.even q then q else q + 1 in
    Z.sgn size * (q' * 2 ^ e).

(** The [while] loop.  A [double] here is an integer divided by a
    power of 1024 and division by 1024 is exact, so the values are
    rationals.  The loop runs at most six times because of its second
    condition; [n] bounds the iterations. *)
Fixpoint scale_units (n : nat) (human_size : Q) (unit_index : nat) : Q * nat :=
  match n with
  | O => (human_size, unit_index)
  | S n' =>
      if Qle_bool 1024 human_size && (unit_index <? 6)%nat
      then scale_units n' (human_size / 1024) (S unit_index)
      else (human_size, unit_index)
  end.

Definition units : list string := ["B"; "K"; "M"; "G"; "T"; "P"; "E"].

(** The integer nearest to [n / d], ties to even. *)
Definition round_half_even (n d : Z) : Z :=
  let q := n / d in
  let r := n mod d in
  if 2 * r <? d then q
  else if d <? 2 * r then q + 1
  else if Z.even q then q else q + 1.

(** [%.1f] of a non-negative value: the nearest multiple of one tenth,
    ties to even (the exact binary value is rounded, as glibc does). *)
Definition tenths (x : Q) : Z :=
  round_half_even (10 * Qnum x) (Z.pos (Qden x)).

Definition fmt_tenths (t : Z) : string :=
  dec (t / 10) ++ "." ++ dec (t mod 10).

Definition fmt_1f (x : Q) : string := fmt_tenths (tenths x).

Definition format_size_human (size : Z) (buf_size : nat) : string :=
  let '(human_size, unit_index) :=
    scale_units 6 (inject_Z (double_of_long_long size)) 0 in
  if (unit_index =? 0)%nat then truncate (buf_size - 1) (dec size)
  else truncate (buf_size - 1)
         (fmt_1f human_size ++ nth unit_index units EmptyString).

(** ** [uname_for_uid] and [group_for_gid] *)

(** [None] is the return value 1; [Some] is the return value 0 with
    the buffer contents ([strncpy] copies at most [buflen] bytes). *)
Definition uname_for_uid (uid : Z) (buflen : nat) : option string :=
  match getpwuid os uid with
  | None => None
  | Some pw_name => Some (truncate buflen pw_name)
  end.

Definition group_for_gid (gid : Z) (buflen : nat) : option string :=
  match getgrgid os gid with
  | None => None
  | Some gr_name => Some (truncate buflen gr_name)
  end.

(** ** [list_file] *)

Definition PRINT_PERM_CHAR (mode mask : Z) (ch : string) : string :=
  if Z.land mode mask =? 0 then "-" else ch.

Definition perm_string (mode : Z) : string :=
  PRINT_PERM_CHAR mode S_IRUSR "r" ++ PRINT_PERM_CHAR mode S_IWUSR "w"
  ++ PRINT_PERM_CHAR mode S_IXUSR "x"
  ++ PRINT_PERM_CHAR mode S_IRGRP "r" ++ PRINT_PERM_CHAR mode S_IWGRP "w"
  ++ PRINT_PERM_CHAR mode S_IXGRP "x"
  ++ PRINT_PERM_CHAR mode S_IROTH "r" ++ PRINT_PERM_CHAR mode S_IWOTH "w"
  ++ PRINT_PERM_CHAR mode S_IXOTH "x".

Definition list_file (pathandname name : string) (list_long : bool)
    (s : state) : state :=
  if count_only s then incr_file_count s
  else if list_long then
    match lstat os pathandname with
    | Err e => handle_error "cannot access" pathandname e s
    | Ok sb =>
        let line := ftype_to_str (st_mode sb) ++ perm_string (st_mode sb) in
        let line := line ++ " " ++ dec (to_signed 64 (st_nlink sb)) in
        (* owner name *)
        let '(line, s) :=
          match uname_for_uid (st_uid sb) 32 with
          | Some owner => (line ++ " " ++ pad_right 8 owner, s)
          | None =>
              (line ++ " " ++ pad_right 8 (dec (to_signed 32 (st_uid sb))),
               or_err_code (Z.lor (Z.shiftl 1 6) (Z.shiftl 1 5)) s)
          end in
        (* group name *)
        let '(line, s) :=
          match group_for_gid (st_gid sb) 32 with
          | Some group => (line ++ " " ++ pad_right 8 group, s)
          | None =>
              (line ++ " " ++ pad_right 8 (dec (to_signed 32 (st_gid sb))),
               or_err_code (Z.lor (Z.shiftl 1 6) (Z.shiftl 1 5)) s)
          end in
        (* file size *)
        let line :=
          if human_readable s
          then line ++ " "
               ++ pad_left 5 (format_size_human (to_signed 64 (st_size sb)) 16)
          else line ++ " " ++ pad_left 8 (dec (to_signed 64 (st_size sb))) in
        (* modification time *)
        let line := line ++ " " ++ date_string (st_mtime sb) in
        (* the file name *)
        let line :=
          if S_ISLNK (st_mode sb) then
            match readlink os pathandname with
            | Some target => line ++ " " ++ name ++ " -> " ++ truncate 1023 target
            | None => line ++ " " ++ name ++ " -> ?"
            end
          else
            line ++ " " ++ name
            ++ (if S_ISDIR (st_mode sb) && negb (name =? ".")%string
                   && negb (name =? "..")%string
                then "/" else EmptyString) in
        print (LEntry line) s
    end
  else
    let '(exists_, s) := test_file pathandname s in
    if negb exists_ then s
    else
      (* On an unchanged file system this second [lstat] cannot fail
         (lemma [is_dir_after_test_file]). *)
      let '(d, s) := is_dir pathandname s in
      print (LEntry (name ++ (if d && negb (name =? ".")%string
                                   && negb (name =? "..")%string
                              then "/" else EmptyString))) s.

(** ** [list_dir] *)

(** [entry->d_name[0] == '.'] *)
Definition starts_with_dot (d_name : string) : bool :=
  match d_name with
  | String c _ => Ascii.eqb c "."
  | EmptyString => false
  end.

(** [snprintf(fullpath, sizeof(fullpath), "%s/%s", dirname, d_name)]
    with [char fullpath[1024]]. *)
Definition fullpath_of (dirname d_name : string) : string :=
  truncate 1023 (dirname ++ "/" ++ d_name).

(** The test of lines 375-376. *)
Definition lstat_is_dir (path : string) : bool :=
  match lstat os path with
  | Ok sb => S_ISDIR (st_mode sb)
  | Err _ => false
  end.

(** One iteration of the [readdir] loop, lines 357-384.
    [subdir_list] holds the rows of the array that are in use, so
    [subdir_count] is its length; a row has 256 bytes. *)
Definition scan_entry (dirname : string) (list_long list_all recursive : bool)
    (d_name : string) (acc : list string * state) : list string * state :=
  let '(subdir_list, s) := acc in
  if negb list_all && starts_with_dot d_name then (subdir_list, s)
  else
    let fullpath := fullpath_of dirname d_name in
    let s := list_file fullpath d_name list_long s in
    if recursive then
      if (d_name =? ".")%string || (d_name =? "..")%string then (subdir_list, s)
      else if lstat_is_dir fullpath then
        if (Z.of_nat (List.length subdir_list) <? 1024)
        then ((subdir_list ++ [truncate 255 fullpath])%list, s)
        else (subdir_list, s)
      else (subdir_list, s)
    else (subdir_list, s).

Fixpoint scan_entries (dirname : string) (list_long list_all recursive : bool)
    (entries : list string) (acc : list string * state) : list string * state :=
  match entries with
  | [] => acc
  | d_name :: rest =>
      scan_entries dirname list_long list_all recursive rest
        (scan_entry dirname list_long list_all recursive d_name acc)
  end.

(** A [for] loop over a list whose body may fail to return. *)
Fixpoint for_each {A : Type} (body : A -> state -> option state)
    (l : list A) (s : state) : option state :=
  match l with
  | [] => Some s
  | a :: rest =>
      match body a s with
      | None => None
      | Some s' => for_each body rest s'
      end
  end.

(** [depth] bounds the nesting of calls; [None] means the bound was
    reached. *)
Fixpoint list_dir (depth : nat) (dirname : string)
    (list_long list_all recursive : bool) (s : state) : option state :=
  match depth with
  | O => None
  | S depth' =>
      let s := if recursive then print (LHeader dirname) s else s in
      match opendir os dirname with
      | Err e => Some (handle_error "Error opening directory" dirname e s)
      | Ok entries =>
          let '(subdir_list, s) :=
            scan_entries dirname list_long list_all recursive entries ([], s) in
          if recursive && (0 <? Z.of_nat (List.length subdir_list))
          then
            for_each
              (fun subdir s =>
                 list_dir depth' subdir list_long list_all recursive
                          (print LBlank s))
              subdir_list s
          else Some s
      end
  end.

(** ** [main], after option parsing *)

(** The loop of lines 460-483 over the path arguments.  [many] is
    [argc - optind > 1]; [index + 1 < argc] holds when arguments
    remain. *)
Fixpoint list_targets (depth : nat) (many list_long list_all recursive : bool)
    (args : list string) (s : state) : option state :=
  match args with
  | [] => Some s
  | arg :: rest =>
      let '(exists_, s) := test_file arg s in
      if negb exists_ then
        list_targets depth many list_long list_all recursive rest s
      else
        let '(d, s) := is_dir arg s in
        if d then
          let s := if many then print (LHeader arg) s else s in
          match list_dir depth arg list_long list_all recursive s with
          | None => None
          | Some s =>
              let s := match rest with
                       | [] => s
                       | _ :: _ => print LBlank s
                       end in
              list_targets depth many list_long list_all recursive rest s
          end
        else
          list_targets depth many list_long list_all recursive rest
            (list_file arg arg list_long s)
  end.

(** The options [-l], [-a], [-R], [-n], [-h] as [getopt_long] leaves
    them. *)
Record options := mkOptions {
  opt_l : bool;
  opt_a : bool;
  opt_R : bool;
  opt_n : bool;
  opt_h : bool
}.

(** The state after the option loop and [file_count = 0]. *)
Definition initial_state (o : options) : state :=
  mkState 0 0 (opt_n o) (opt_h o) [].

(** [main] from line 452 on.  The result is the state at [exit]; the
    exit status is its [err_code]. *)
Definition ls_main (depth : nat) (o : options) (args : list string)
    : option state :=
  let s := initial_state o in
  let r :=
    match args with
    | [] =>
        let s := if opt_R o then print (LHeader ".") s else s in
        list_dir depth "." (opt_l o) (opt_a o) (opt_R o) s
    | _ :: _ =>
        list_targets depth (1 <? Z.of_nat (List.length args))
                     (opt_l o) (opt_a o) (opt_R o) args s
    end in
  match r with
  | None => None
  | Some s =>
      Some (if count_only s then print (LTotal (file_count s)) s else s)
  end.

End Program.

(** ** Vocabulary of the properties *)

(** The exit-status bits. *)
Definition BIT_ERROR : Z := 64.
Definition BIT_NOT_FOUND : Z := 8.
Definition BIT_PERMISSION : Z := 16.
Definition BIT_OTHER : Z := 32.

(** [s'] differs from [s] in [err_code] only by bits that were ORed in. *)
Definition accumulates (s s' : state) : Prop :=
  exists bits, err_code s' = Z.lor (err_code s) bits.

(** What every function of the program does to the state: bits are
    ORed into [err_code], lines are appended to the output, the mode
    flags stay, the counter does not decrease. *)
Definition evolves (s s' : state) : Prop :=
  accumulates s s'
  /\ (exists lines, out s' = (out s ++ lines)%list)
  /\ count_only s' = count_only s
  /\ human_readable s' = human_readable s
  /\ file_count s <= file_count s'.

(** The lines that the listing of one entry writes: its own line, or
    the diagnostic of its failed [lstat]. *)
Definition per_entry_line (l : out_line) : bool :=
  match l with
  | LEntry _ => true
  | LDiag what _ _ => (what =? "cannot access")%string
  | _ => false
  end.

Definition is_diag_line (l : out_line) : bool :=
  match l with
  | LDiag _ _ _ => true
  | _ => false
  end.

(** ** The columns of a long-format line

    The same line as [list_file] assembles piece by piece, read column
    by column; [list_file_long] shows that the two agree. *)

Definition mode_columns (sb : stat) : string :=
  ftype_to_str (st_mode sb) ++ perm_string (st_mode sb)
  ++ " " ++ dec (to_signed 64 (st_nlink sb)).

Definition id_column (name : option string) (id : Z) : string :=
  " " ++ pad_right 8 (match name with
                      | Some n => truncate 32 n
                      | None => dec (to_signed 32 id)
                      end).

Definition owner_column (os : os_model) (sb : stat) : string :=
  id_column (getpwuid os (st_uid sb)) (st_uid sb).

Definition group_column (os : os_model) (sb : stat) : string :=
  id_column (getgrgid os (st_gid sb)) (st_gid sb).

Definition size_column (human : bool) (sb : stat) : string :=
  if human
  then " " ++ pad_left 5 (format_size_human (to_signed 64 (st_size sb)) 16)
  else " " ++ pad_left 8 (dec (to_signed 64 (st_size sb))).

Definition date_column (os : os_model) (sb : stat) : string :=
  " " ++ date_string os (st_mtime sb).

Definition name_column (os : os_model) (pathandname name : string)
    (sb : stat) : string :=
  if S_ISLNK (st_mode sb) then
    " " ++ name ++ " -> "
    ++ match readlink os pathandname with
       | Some target => truncate 1023 target
       | None => "?"
       end
  else
    " " ++ name
    ++ (if S_ISDIR (st_mode sb) && negb (name =? ".")%string
           && negb (name =? "..")%string
        then "/" else EmptyString).

Definition long_line (os : os_model) (human : bool)
    (pathandname name : string) (sb : stat) : string :=
  mode_columns sb ++ owner_column os sb ++ group_column os sb
  ++ size_column human sb ++ date_column os sb
  ++ name_column os pathandname name sb.

(** The bits that failed name lookups add to [err_code]. *)
Definition name_lookup_bits (os : os_model) (sb : stat) : Z :=
  match getpwuid os (st_uid sb), getgrgid os (st_gid sb) with
  | Some _, Some _ => 0
  | _, _ => 96
  end.

(** ** The two passes of [list_dir]

    The [readdir] loop lists entries and collects subdirectories in
    one sweep.  Read apart, it is a listing pass over the visible
    entries and a selection of the subdirectories to descend into;
    [scan_entries_split] shows that the loop computes both. *)

Definition visible_entries (list_all : bool) (entries : list string)
    : list string :=
  filter (fun d_name => negb (negb list_all && starts_with_dot d_name)) entries.

Definition list_entries (os : os_model) (dirname : string)
    (list_long list_all : bool) (entries : list string) (s : state) : state :=
  fold_left
    (fun s d_name => list_file os (fullpath_of dirname d_name) d_name list_long s)
    (visible_entries list_all entries) s.

Definition is_dot_or_dotdot (d_name : string) : bool :=
  ((d_name =? ".") || (d_name =? ".."))%string.

(** The subdirectory entries of a directory, as full paths. *)
Definition discovered_subdirs (os : os_model) (dirname : string)
    (list_all : bool) (entries : list string) : list string :=
  filter (lstat_is_dir os)
    (map (fullpath_of dirname)
       (filter (fun d_name => negb (is_dot_or_dotdot d_name))
          (visible_entries list_all entries))).

(** What [subdir_list] holds when the loop ends: the first 1024 of
    them, each cut to 255 bytes. *)
Definition stored_subdirs (os : os_model) (dirname : string)
    (list_all : bool) (entries : list string) : list string :=
  firstn 1024 (map (truncate 255) (discovered_subdirs os dirname list_all entries)).

(** Comparison of two runs that may both fail to return. *)
Definition both (P : state -> state -> Prop) (r1 r2 : option state) : Prop :=
  match r1, r2 with
  | Some s1, Some s2 => P s1 s2
  | None, None => True
  | _, _ => False
  end.

Definition add_file_count (n : Z) (s : state) : state :=
  mkState (err_code s) (file_count s + n) (count_only s)
          (human_readable s) (out s).

(** ** A counting run beside a listing run *)

(** What is left of some output once the per-entry lines are taken
    out, and how many were taken out. *)
Definition suppressed (lines : list out_line) : list out_line :=
  filter (fun l => negb (per_entry_line l)) lines.

Definition count_of_entries (lines : list out_line) : Z :=
  Z.of_nat (List.length (filter per_entry_line lines)).

Definition is_total_line (l : out_line) : bool :=
  match l with
  | LTotal _ => true
  | _ => false
  end.


(** From [sc] (counting) and [sb] (listing) two runs of the same walk
    reached [sc'] and [sb']: the listing run wrote [lines]; the
    counting run wrote the same without the per-entry lines and
    counted one for each of them. *)
Definition mirrors (sc sb sc' sb' : state) : Prop :=
  count_only sc' = true /\ count_only sb' = false
  /\ exists lines,
       out sb' = (out sb ++ lines)%list
       /\ out sc' = (out sc ++ suppressed lines)%list
       /\ file_count sc' = file_count sc + count_of_entries lines
       /\ forallb (fun l => negb (is_total_line l)) lines = true.



(** ** Concrete file systems used by the examples *)

Definition dir_stat : stat := mkStat (S_IFDIR + 493) 2 1000 1000 4096 100.
Definition file_stat : stat := mkStat (S_IFREG + 420) 1 1000 1000 1536 100.

Definition path_in (p : string) (l : list string) : bool :=
  existsb (String.eqb p) l.

(** The tree [root/{a.txt, sub/{b.txt}}], with [.] holding [a.txt],
    a directory [locked] that cannot be opened, and nothing else. *)
Definition os_tree : os_model :=
  mkOS
    (fun p =>
       if path_in p ["root"; "root/sub"; "."; "locked"] then Ok dir_stat
       else if path_in p ["root/a.txt"; "root/sub/b.txt"; "./a.txt"]
            then Ok file_stat
       else Err ENOENT)
    (fun p =>
       if (p =? "root")%string then Ok ["a.txt"; "sub"]
       else if (p =? "root/sub")%string then Ok ["b.txt"]
       else if (p =? ".")%string then Ok ["a.txt"]
       else if (p =? "locked")%string then Err EACCES
       else Err ENOENT)
    (fun uid => if uid =? 1000 then Some "alice" else None)
    (fun gid => if gid =? 1000 then Some "staff" else None)
    (fun _ => None)
    1000
    (fun fmt _ => fmt)
    (fun _ => "error").



(** A directory [d] with one subdirectory whose name has 254
    characters, holding one file. *)
Definition long_name : string := string_of_list_ascii (repeat "x"%char 254).

Definition os_deep : os_model :=
  mkOS
    (fun p =>
       if path_in p ["d"; "d/" ++ long_name] then Ok dir_stat
       else if (p =? "d/" ++ long_name ++ "/deep.txt")%string then Ok file_stat
       else Err ENOENT)
    (fun p =>
       if (p =? "d")%string then Ok [long_name]
       else if (p =? "d/" ++ long_name)%string then Ok ["deep.txt"]
       else Err ENOENT)
    (fun _ => Some "alice") (fun _ => Some "staff") (fun _ => None)
    1000 (fun fmt _ => fmt) (fun _ => "error").

(** A directory [w] with 1025 empty subdirectories [s0] ... [s1024]. *)
Definition os_wide : os_model :=
  mkOS
    (fun _ => Ok dir_stat)
    (fun p =>
       if (p =? "w")%string
       then Ok (map (fun n => "s" ++ dec (Z.of_nat n)) (seq 0 (Z.to_nat 1025)))
       else Ok [])
    (fun _ => Some "alice") (fun _ => Some "staff") (fun _ => None)
    1000 (fun fmt _ => fmt) (fun _ => "error").

Definition is_blank_line (l : out_line) : bool :=
  match l with
  | LBlank => true
  | _ => false
  end.


Definition only_n : options := mkOptions false false false true false.

Definition only_n_R : options := mkOptions false false true true false.

Definition no_options : options := mkOptions false false false false false.
Definition only_R : options := mkOptions false false true false false.

(** ** The option loop of [main], lines 418-450

    [getopt_long] is the C library's; the loop is modelled over the
    sequence of values it returns before [-1]. *)

Definition char_code (c : ascii) : Z := Z.of_N (N_of_ascii c).

Definition set_opt_l (o : options) : options :=
  mkOptions true (opt_a o) (opt_R o) (opt_n o) (opt_h o).
Definition set_opt_a (o : options) : options :=
  mkOptions (opt_l o) true (opt_R o) (opt_n o) (opt_h o).
Definition set_opt_R (o : options) : options :=
  mkOptions (opt_l o) (opt_a o) true (opt_n o) (opt_h o).
Definition set_opt_n (o : options) : options :=
  mkOptions (opt_l o) (opt_a o) (opt_R o) true (opt_h o).
Definition set_opt_h (o : options) : options :=
  mkOptions (opt_l o) (opt_a o) (opt_R o) (opt_n o) true.

(** The value [getopt_long] returns for [--help]: the character
    ['\a']. *)
Definition HELP : Z := 7.

(** The result is [None] when [help()] ended the process with status
    0; the list holds the values reported as "Unimplemented flag". *)
Fixpoint option_loop (opts : list Z) (o : options) (unimplemented : list Z)
    : option options * list Z :=
  match opts with
  | [] => (Some o, unimplemented)
  | opt :: rest =>
      if opt =? HELP then (None, unimplemented)
      else if opt =? char_code "1" then option_loop rest o unimplemented
      else if opt =? char_code "a"
           then option_loop rest (set_opt_a o) unimplemented
      else if opt =? char_code "l"
           then option_loop rest (set_opt_l o) unimplemented
      else if opt =? char_code "R"
           then option_loop rest (set_opt_R o) unimplemented
      else if opt =? char_code "n"
           then option_loop rest (set_opt_n o) unimplemented
      else if opt =? char_code "h"
           then option_loop rest (set_opt_h o) unimplemented
      else option_loop rest o (unimplemented ++ [opt])%list
  end.

(** The flags as [main] initialises them, lines 402-404. *)
Definition default_options : options :=
  mkOptions false false false false false.

(** ** Vocabulary of the further properties *)

Definition occurs (c : ascii) (opts : list Z) : bool :=
  existsb (Z.eqb (char_code c)) opts.

Definition known_option (opt : Z) : bool :=
  existsb (Z.eqb opt)
    [char_code "1"; char_code "a"; char_code "l"; char_code "R";
     char_code "n"; char_code "h"].

(** The nine permission masks in the order they are printed. *)
Definition perm_masks : list Z :=
  [S_IRUSR; S_IWUSR; S_IXUSR; S_IRGRP; S_IWGRP; S_IXGRP;
   S_IROTH; S_IWOTH; S_IXOTH].

(** Reading a permission string back: the sum of the masks whose
    position does not hold a dash. *)
Fixpoint perm_bits_from (masks : list Z) (text : string) : Z :=
  match masks, text with
  | m :: masks', String c text' =>
      (if Ascii.eqb c "-" then 0 else m) + perm_bits_from masks' text'
  | _, _ => 0
  end.

Definition perm_bits (text : string) : Z := perm_bits_from perm_masks text.

(** The line of an entry in bare mode. *)
Definition bare_name (sb : stat) (name : string) : string :=
  name ++ (if S_ISDIR (st_mode sb) && negb (name =? ".")%string
              && negb (name =? "..")%string
           then "/" else EmptyString).


(** The exit statuses the program can end with. *)
Definition exit_statuses : list Z := [0; 72; 80; 88; 96; 104; 112; 120].

(** A directory [links] holding a symbolic link whose target can be
    read, one whose target cannot, a hidden file and a subdirectory. *)
Definition link_stat : stat := mkStat (S_IFLNK + 511) 1 1000 1000 6 100.

Definition os_links : os_model :=
  mkOS
    (fun p =>
       if path_in p ["links"; "links/sub"; "links/."; "links/.."]
       then Ok dir_stat
       else if path_in p ["links/good"; "links/dangling"] then Ok link_stat
       else if (p =? "links/.hidden")%string then Ok file_stat
       else Err ENOENT)
    (fun p =>
       if (p =? "links")%string
       then Ok ["."; ".."; ".hidden"; "good"; "dangling"; "sub"; "gone"]
       else if (p =? "links/sub")%string then Ok []
       else Err ENOENT)
    (fun uid => if uid =? 1000 then Some "alice" else None)
    (fun gid => if gid =? 1000 then Some "staff" else None)
    (fun p => if (p =? "links/good")%string then Some "target" else None)
    1000
    (fun fmt _ => fmt)
    (fun _ => "error").

Definition only_l : options := mkOptions true false false false false.
Definition only_a : options := mkOptions false true false false false.

(** Three relations between an earlier and a later state of a run. *)

(** The status stays among the possible exit statuses. *)
Definition keeps_status (s s' : state) : Prop :=
  In (err_code s) exit_statuses -> In (err_code s') exit_statuses.

(** A status that is still 0 means that no diagnostic was written. *)
Definition reports_failures (s s' : state) : Prop :=
  err_code s' = 0 ->
  err_code s = 0
  /\ exists lines,
       out s' = (out s ++ lines)%list
       /\ forallb (fun l => negb (is_diag_line l)) lines = true.

(** The mode flags stay, and outside count-only mode so does the
    counter, and no total is written. *)
Definition counter_idle (s s' : state) : Prop :=
  count_only s' = count_only s
  /\ human_readable s' = human_readable s
  /\ (count_only s = false ->
      file_count s' = file_count s
      /\ exists lines,
           out s' = (out s ++ lines)%list
           /\ forallb (fun l => negb (is_total_line l)) lines = true).

(** * Properties *)

(** ** Arithmetic of the conversions *)

Lemma to_unsigned_to_signed (w x : Z) :
  0 < w -> to_unsigned w (to_signed w x) = x mod 2 ^ w.
Proof.
  intros Hw. unfold to_unsigned, to_signed.
  assert (Hp : 0 < 2 ^ w) by (apply Z.pow_pos_nonneg; lia).
  destruct (x mod 2 ^ w <? 2 ^ (w - 1)).
  - apply Z.mod_mod. lia.
  - rewrite <- (Z.mod_mod x (2 ^ w)) at 2 by lia.
    rewrite <- (Z.mod_add (x mod 2 ^ w - 2 ^ w) 1 (2 ^ w)) by lia.
    f_equal. lia.
Qed.

Lemma to_signed_small (w x : Z) :
  0 < w -> - 2 ^ (w - 1) <= x < 2 ^ (w - 1) -> to_signed w x = x.
Proof.
  intros Hw Hx. unfold to_signed.
  assert (Hp : 2 ^ w = 2 * 2 ^ (w - 1)).
  { replace w with (Z.succ (w - 1)) at 1 by lia. apply Z.pow_succ_r. lia. }
  assert (Hq : 0 < 2 ^ (w - 1)) by (apply Z.pow_pos_nonneg; lia).
  destruct (Z_lt_le_dec x 0) as [Hneg | Hpos].
  - assert (Hm : x mod 2 ^ w = x + 2 ^ w).
    { symmetry. apply Z.mod_unique with (q := -1); lia. }
    rewrite Hm.
    destruct (Z.ltb_spec (x + 2 ^ w) (2 ^ (w - 1))); lia.
  - rewrite Z.mod_small by lia.
    destruct (Z.ltb_spec x (2 ^ (w - 1))); lia.
Qed.

(** ** Dates *)

Lemma date_format_cases (now ts : Z) :
  - 2 ^ 63 <= now < 2 ^ 63 -> - 2 ^ 63 <= ts < 2 ^ 63 ->
  date_format now ts =
    if (now <? ts) || (31556952 <=? now - ts) then "%b %e %Y"
    else "%b %e %H:%M".
Proof.
  intros Hn Ht. unfold date_format.
  destruct (Z.ltb_spec now ts) as [Hfut | Hpast]; [reflexivity |].
  cbn [orb].
  rewrite to_unsigned_to_signed by lia.
  rewrite Z.mod_small by lia.
  destruct (Z.ltb_spec (now - ts) 31556952), (Z.leb_spec 31556952 (now - ts));
    (reflexivity || lia).
Qed.

(** C6, as the code has it: the date carries a year exactly when the
    modification time is in the future or at least 31,556,952 seconds
    in the past (the boundary itself included), and a clock time
    otherwise; 10 seconds ahead gives a year, 2 days back a clock
    time, 400 days back a year. *)
Theorem date_format_policy (now ts : Z) :
  - 2 ^ 63 <= now < 2 ^ 63 -> - 2 ^ 63 <= ts < 2 ^ 63 ->
  (date_format now ts = "%b %e %Y" <-> (now < ts \/ 31556952 <= now - ts))
  /\ (date_format now ts = "%b %e %H:%M" <->
      (ts <= now /\ now - ts < 31556952))
  /\ (ts = now + 10 -> date_format now ts = "%b %e %Y")
  /\ (ts = now - 2 * 86400 -> date_format now ts = "%b %e %H:%M")
  /\ (ts = now - 400 * 86400 -> date_format now ts = "%b %e %Y").
Proof.
  intros Hn Ht.
  pose proof (date_format_cases now ts Hn Ht) as E.
  destruct (Z.ltb_spec now ts) as [Hfut | Hpast];
    destruct (Z.leb_spec 31556952 (now - ts)) as [Hold | Hrecent];
    cbn [orb] in E; rewrite E;
    (repeat split; intros; try reflexivity; try discriminate; try lia;
     match goal with
     | H : _ \/ _ |- _ => destruct H; lia
     | H : _ /\ _ |- _ => destruct H; lia
     | _ => idtac
     end).
Qed.

Lemma date_format_policy_witness :
  date_format 1000000000 1000000010 = "%b %e %Y"
  /\ date_format 1000000000 (1000000000 - 2 * 86400) = "%b %e %H:%M".
Proof.
  split.
  - destruct (date_format_policy 1000000000 1000000010) as (_ & _ & H & _);
      [lia | lia | apply H; reflexivity].
  - destruct (date_format_policy 1000000000 (1000000000 - 2 * 86400))
      as (_ & _ & _ & H & _); [lia | lia | apply H; reflexivity].
Defined.

(** C6 as stated fails on the boundary: a file exactly 31,556,952
    seconds old is not "more than" that old, yet gets a year. *)
Lemma date_format_boundary_counterexample :
  ~ (forall now ts : Z,
       - 2 ^ 63 <= now < 2 ^ 63 -> - 2 ^ 63 <= ts < 2 ^ 63 ->
       (date_format now ts = "%b %e %Y" <->
        (now < ts \/ 31556952 < now - ts))).
Proof.
  intros H.
  destruct (H 31556952 0) as [Hyear _]; [lia | lia |].
  destruct (Hyear eq_refl); lia.
Qed.

(** ** The state record *)


Lemma out_or_err_code bits s : out (or_err_code bits s) = out s.
Proof. reflexivity. Qed.

(** The three branches of [handle_error]. *)
Ltac errno_cases e :=
  unfold handle_error;
  destruct (e =? ENOENT); [| destruct ((e =? EACCES) || (e =? EPERM))].

Lemma out_handle_error what path e s :
  out (handle_error what path e s) = (out s ++ [LDiag what path e])%list.
Proof. errno_cases e; reflexivity. Qed.

Lemma file_count_handle_error what path e s :
  file_count (handle_error what path e s) = file_count s.
Proof. errno_cases e; reflexivity. Qed.

Lemma count_only_handle_error what path e s :
  count_only (handle_error what path e s) = count_only s.
Proof. errno_cases e; reflexivity. Qed.

Lemma err_code_handle_error what path e s :
  err_code (handle_error what path e s) =
  Z.lor (err_code s)
    (Z.lor BIT_ERROR
       (if e =? ENOENT then BIT_NOT_FOUND
        else if (e =? EACCES) || (e =? EPERM) then BIT_PERMISSION
        else BIT_OTHER)).
Proof.
  errno_cases e; cbn [err_code or_err_code print]; now rewrite Z.lor_assoc.
Qed.

(** ** What every step preserves *)

Lemma evolves_refl s : evolves s s.
Proof.
  repeat split; try reflexivity; try lia.
  - exists 0. now rewrite Z.lor_0_r.
  - exists []. now rewrite app_nil_r.
Qed.

Lemma evolves_trans s1 s2 s3 :
  evolves s1 s2 -> evolves s2 s3 -> evolves s1 s3.
Proof.
  intros ([b1 H1] & [d1 O1] & C1 & U1 & F1) ([b2 H2] & [d2 O2] & C2 & U2 & F2).
  repeat split; try congruence; try lia.
  - exists (Z.lor b1 b2). now rewrite H2, H1, Z.lor_assoc.
  - exists (d1 ++ d2)%list. now rewrite O2, O1, app_assoc.
Qed.

Lemma evolves_print l s : evolves s (print l s).
Proof.
  repeat split; cbn; try lia.
  - exists 0. now rewrite Z.lor_0_r.
  - now exists [l].
Qed.

Lemma evolves_or bits s : evolves s (or_err_code bits s).
Proof.
  repeat split; cbn; try lia.
  - now exists bits.
  - exists []. now rewrite app_nil_r.
Qed.

Lemma evolves_incr s : evolves s (incr_file_count s).
Proof.
  repeat split; cbn; try lia.
  - exists 0. now rewrite Z.lor_0_r.
  - exists []. now rewrite app_nil_r.
Qed.

Lemma evolves_handle_error what path e s :
  evolves s (handle_error what path e s).
Proof.
  errno_cases e;
    (eapply evolves_trans; [| apply evolves_or]);
    (eapply evolves_trans; [| apply evolves_or]);
    apply evolves_print.
Qed.

Lemma evolves_accumulates s s' : evolves s s' -> accumulates s s'.
Proof. now intros (H & _). Qed.

Lemma accumulates_keeps_bits s s' i :
  accumulates s s' ->
  Z.testbit (err_code s) i = true -> Z.testbit (err_code s') i = true.
Proof.
  intros [bits H] Hi. now rewrite H, Z.lor_spec, Hi.
Qed.

Create HintDb evol.

#[local] Hint Resolve evolves_refl evolves_print evolves_or
  evolves_incr evolves_handle_error : evol.

Lemma evolves_test_file os p s :
  evolves s (snd (test_file os p s)).
Proof. unfold test_file. destruct (lstat os p); cbn; auto with evol. Qed.

Lemma evolves_is_dir os p s :
  evolves s (snd (is_dir os p s)).
Proof. unfold is_dir. destruct (lstat os p); cbn; auto with evol. Qed.

Lemma evolves_list_file os p n l s :
  evolves s (list_file os p n l s).
Proof.
  unfold list_file.
  destruct (count_only s); [auto with evol |].
  destruct l.
  - destruct (lstat os p) as [sb | e]; [| auto with evol].
    destruct (uname_for_uid os (st_uid sb) 32),
             (group_for_gid os (st_gid sb) 32);
      cbv zeta; cbn [fst snd];
      repeat (eapply evolves_trans; [| apply evolves_print]);
      repeat (eapply evolves_trans; [| apply evolves_or]);
      apply evolves_refl.
  - pose proof (evolves_test_file os p s) as H1.
    destruct (test_file os p s) as [ok s1]. cbn [snd] in H1.
    destruct ok; cbn [negb]; [| exact H1].
    pose proof (evolves_is_dir os p s1) as H2.
    destruct (is_dir os p s1) as [d s2]. cbn [snd] in H2.
    eapply evolves_trans; [exact H1 |].
    eapply evolves_trans; [exact H2 | apply evolves_print].
Qed.

Lemma evolves_scan_entry os d l a R n acc :
  evolves (snd acc) (snd (scan_entry os d l a R n acc)).
Proof.
  destruct acc as [subs s]. unfold scan_entry. cbn [snd].
  destruct (negb a && starts_with_dot n); [apply evolves_refl |].
  pose proof (evolves_list_file os (fullpath_of d n) n l s) as H.
  destruct R; [| exact H].
  destruct ((n =? ".")%string || (n =? "..")%string); [exact H |].
  destruct (lstat_is_dir os (fullpath_of d n)); [| exact H].
  destruct (Z.of_nat (List.length subs) <? 1024); exact H.
Qed.

Lemma evolves_scan_entries os d l a R entries acc :
  evolves (snd acc) (snd (scan_entries os d l a R entries acc)).
Proof.
  revert acc. induction entries as [| n rest IH]; intros acc; cbn.
  - apply evolves_refl.
  - eapply evolves_trans; [apply evolves_scan_entry | apply IH].
Qed.

Lemma evolves_for_each {A} (body : A -> state -> option state) l :
  (forall a s s', body a s = Some s' -> evolves s s') ->
  forall s s', for_each body l s = Some s' -> evolves s s'.
Proof.
  intros Hbody. induction l as [| a rest IH]; intros s s' H; cbn in H.
  - injection H as <-. apply evolves_refl.
  - destruct (body a s) as [s1 |] eqn:E; [| discriminate].
    eapply evolves_trans; [eapply Hbody; eassumption | now apply IH].
Qed.

Lemma evolves_list_dir os depth :
  forall d l a R s s',
    list_dir os depth d l a R s = Some s' -> evolves s s'.
Proof.
  induction depth as [| depth IH]; intros d l a R s s' H; [discriminate |].
  cbn [list_dir] in H.
  set (s0 := if R then print (LHeader d) s else s) in H.
  assert (H0 : evolves s s0) by (subst s0; destruct R; auto with evol).
  destruct (opendir os d) as [entries | e].
  - pose proof (evolves_scan_entries os d l a R entries ([], s0)) as H1.
    destruct (scan_entries os d l a R entries ([], s0)) as [subs s1].
    cbn [snd] in H1.
    eapply evolves_trans; [exact H0 |].
    eapply evolves_trans; [exact H1 |].
    destruct (R && (0 <? Z.of_nat (List.length subs))).
    + eapply evolves_for_each; [| exact H].
      intros sub t t' Ht. cbv beta in Ht.
      eapply evolves_trans; [apply evolves_print |].
      eapply IH; exact Ht.
    + injection H as <-. apply evolves_refl.
  - injection H as <-.
    eapply evolves_trans; [exact H0 | apply evolves_handle_error].
Qed.

Lemma evolves_list_targets os depth many l a R args :
  forall s s',
    list_targets os depth many l a R args s = Some s' -> evolves s s'.
Proof.
  induction args as [| arg rest IH]; intros s s' H; cbn [list_targets] in H.
  - injection H as <-. apply evolves_refl.
  - pose proof (evolves_test_file os arg s) as H1.
    destruct (test_file os arg s) as [ok s1]. cbn [snd] in H1.
    destruct ok; cbn [negb] in H.
    + pose proof (evolves_is_dir os arg s1) as H2.
      destruct (is_dir os arg s1) as [isd s2]. cbn [snd] in H2.
      eapply evolves_trans; [exact H1 |].
      eapply evolves_trans; [exact H2 |].
      destruct isd.
      * destruct (list_dir os depth arg l a R
                    (if many then print (LHeader arg) s2 else s2))
          as [s3 |] eqn:E; [| discriminate].
        apply evolves_list_dir in E.
        apply evolves_trans
          with (s2 := if many then print (LHeader arg) s2 else s2);
          [destruct many; auto with evol |].
        eapply evolves_trans; [exact E |].
        eapply evolves_trans; [| eapply IH; exact H].
        destruct rest; auto with evol.
      * eapply evolves_trans; [apply evolves_list_file |].
        eapply IH; exact H.
    + eapply evolves_trans; [exact H1 | eapply IH; exact H].
Qed.

(** ** The depth bound

    A walk that returns within a depth bound returns the same state
    within any larger one. *)

Lemma for_each_more {A} (b1 b2 : A -> state -> option state) l :
  (forall a s s', b1 a s = Some s' -> b2 a s = Some s') ->
  forall s s', for_each b1 l s = Some s' -> for_each b2 l s = Some s'.
Proof.
  intros Hb. induction l as [| a rest IH]; intros s s' H; cbn in *;
    [exact H |].
  destruct (b1 a s) as [s1 |] eqn:E; [| discriminate].
  rewrite (Hb a s s1 E). now apply IH.
Qed.

Lemma list_dir_depth_mono os depth :
  forall depth' d l a R s s',
    (depth <= depth')%nat ->
    list_dir os depth d l a R s = Some s' ->
    list_dir os depth' d l a R s = Some s'.
Proof.
  induction depth as [| depth IH]; intros depth' d l a R s s' Hle H;
    [discriminate |].
  destruct depth' as [| depth']; [lia |].
  cbn [list_dir] in *.
  destruct (opendir os d) as [entries | e]; [| exact H].
  destruct (scan_entries os d l a R entries
              ([], if R then print (LHeader d) s else s)) as [subs s1].
  destruct (R && (0 <? Z.of_nat (List.length subs))); [| exact H].
  eapply for_each_more; [| exact H].
  intros sub t t' Ht. cbv beta in *. apply IH; [lia | exact Ht].
Qed.

Lemma list_targets_depth_mono os depth depth' many l a R args :
  (depth <= depth')%nat ->
  forall s s',
    list_targets os depth many l a R args s = Some s' ->
    list_targets os depth' many l a R args s = Some s'.
Proof.
  intros Hle. induction args as [| arg rest IH]; intros s s' H;
    cbn [list_targets] in *; [exact H |].
  destruct (test_file os arg s) as [ok s1].
  destruct (negb ok); [now apply IH |].
  destruct (is_dir os arg s1) as [isd s2].
  destruct isd; [| now apply IH].
  destruct (list_dir os depth arg l a R
              (if many then print (LHeader arg) s2 else s2)) as [s3 |] eqn:E;
    [| discriminate].
  rewrite (list_dir_depth_mono os depth depth' _ _ _ _ _ _ Hle E).
  now apply IH.
Qed.

Lemma ls_main_depth_mono os depth depth' o args s' :
  (depth <= depth')%nat ->
  ls_main os depth o args = Some s' -> ls_main os depth' o args = Some s'.
Proof.
  intros Hle. unfold ls_main. destruct args as [| arg rest].
  - destruct (list_dir os depth "." _ _ _ _) as [s1 |] eqn:E;
      [| discriminate].
    now rewrite (list_dir_depth_mono os depth depth' _ _ _ _ _ _ Hle E).
  - destruct (list_targets os depth _ _ _ _ (arg :: rest) _) as [s1 |] eqn:E;
      [| discriminate].
    now rewrite (list_targets_depth_mono os depth depth' _ _ _ _ _ Hle _ _ E).
Qed.

(** ** C8: the exit-status accumulator *)

(** C8: recording a path-access failure ORs in the general-error bit
    and exactly one cause bit (not-found for [ENOENT],
    permission-denied for [EACCES] or [EPERM], other for anything
    else); every function of the program changes [err_code] only by
    ORing bits in, so a bit that is set stays set to the end of the
    run. *)
Theorem err_code_only_accumulates (os : os_model) :
  (forall what path e s,
      (e = ENOENT ->
       err_code (handle_error what path e s)
       = Z.lor (err_code s) (Z.lor BIT_ERROR BIT_NOT_FOUND))
      /\ (e = EACCES \/ e = EPERM ->
          err_code (handle_error what path e s)
          = Z.lor (err_code s) (Z.lor BIT_ERROR BIT_PERMISSION))
      /\ (e <> ENOENT -> e <> EACCES -> e <> EPERM ->
          err_code (handle_error what path e s)
          = Z.lor (err_code s) (Z.lor BIT_ERROR BIT_OTHER)))
  /\ (forall p n l s, accumulates s (list_file os p n l s))
  /\ (forall depth d l a R s s',
         list_dir os depth d l a R s = Some s' -> accumulates s s')
  /\ (forall depth many l a R args s s',
         list_targets os depth many l a R args s = Some s' ->
         accumulates s s')
  /\ (forall depth o args s',
         ls_main os depth o args = Some s' ->
         accumulates (initial_state o) s')
  /\ (forall s s' i,
         accumulates s s' ->
         Z.testbit (err_code s) i = true -> Z.testbit (err_code s') i = true).
Proof.
  split; [| split; [| split; [| split; [| split]]]].
  - intros what path e s. rewrite !err_code_handle_error.
    split; [| split].
    + intros ->. reflexivity.
    + intros [-> | ->]; reflexivity.
    + intros H1 H2 H3.
      destruct (Z.eqb_spec e ENOENT); [contradiction |].
      destruct (Z.eqb_spec e EACCES); [contradiction |].
      destruct (Z.eqb_spec e EPERM); [contradiction |].
      reflexivity.
  - intros. apply evolves_accumulates, evolves_list_file.
  - intros depth d l a R s s' H.
    eapply evolves_accumulates, evolves_list_dir; exact H.
  - intros depth many l a R args s s' H.
    eapply evolves_accumulates, evolves_list_targets; exact H.
  - intros depth o args s' H. unfold ls_main in H.
    destruct args as [| arg rest].
    + destruct (list_dir os depth "." (opt_l o) (opt_a o) (opt_R o)
                  (if opt_R o then print (LHeader ".") (initial_state o)
                   else initial_state o)) as [s1 |] eqn:E; [| discriminate].
      injection H as <-.
      apply evolves_list_dir in E. apply evolves_accumulates.
      eapply evolves_trans;
        [| destruct (count_only s1);
           [apply evolves_print | apply evolves_refl]].
      eapply evolves_trans; [| exact E].
      destruct (opt_R o); auto with evol.
    + destruct (list_targets os depth
                  (1 <? Z.of_nat (List.length (arg :: rest)))
                  (opt_l o) (opt_a o) (opt_R o) (arg :: rest)
                  (initial_state o)) as [s1 |] eqn:E; [| discriminate].
      injection H as <-.
      apply evolves_list_targets in E. apply evolves_accumulates.
      eapply evolves_trans; [exact E |].
      destruct (count_only s1); auto with evol.
  - intros s s' i. apply accumulates_keeps_bits.
Qed.

Lemma err_code_only_accumulates_witness :
  exists s',
    ls_main os_tree 3 only_R ["nope"; "locked"] = Some s'
    /\ err_code s' = 88
    /\ accumulates (initial_state only_R) s'.
Proof.
  eexists. split; [reflexivity |]. split; [reflexivity |].
  destruct (err_code_only_accumulates os_tree) as (_ & _ & _ & _ & H & _).
  apply (H 3%nat only_R ["nope"; "locked"]). reflexivity.
Defined.

(** ** C9: a path argument that does not exist *)

Lemma test_file_missing os t e s :
  lstat os t = Err e ->
  test_file os t s = (false, handle_error "cannot access" t e s).
Proof. intros H. unfold test_file. now rewrite H. Qed.

Lemma list_targets_missing os depth many l a R t e rest s :
  lstat os t = Err e ->
  list_targets os depth many l a R (t :: rest) s
  = list_targets os depth many l a R rest
      (handle_error "cannot access" t e s).
Proof.
  intros H. cbn [list_targets]. now rewrite (test_file_missing os t e s H).
Qed.

(** The loop reaches every argument: when the run over [before ++
    rest] returns, it went through a state from which the run over
    [rest] returned the same final state. *)
Lemma list_targets_reaches os depth many l a R before :
  forall rest s s',
    list_targets os depth many l a R (before ++ rest) s = Some s' ->
    exists s1,
      evolves s s1 /\ list_targets os depth many l a R rest s1 = Some s'.
Proof.
  induction before as [| arg before IH]; intros rest s s' H.
  - exists s. split; [apply evolves_refl | exact H].
  - cbn [app list_targets] in H.
    pose proof (evolves_test_file os arg s) as H1.
    destruct (test_file os arg s) as [ok s1]. cbn [snd] in H1.
    destruct ok; cbn [negb] in H.
    + pose proof (evolves_is_dir os arg s1) as H2.
      destruct (is_dir os arg s1) as [isd s2]. cbn [snd] in H2.
      destruct isd.
      * destruct (list_dir os depth arg l a R
                    (if many then print (LHeader arg) s2 else s2))
          as [s3 |] eqn:E; [| discriminate].
        apply evolves_list_dir in E.
        apply IH in H. destruct H as (s4 & H4 & Hrun).
        exists s4. split; [| exact Hrun].
        eapply evolves_trans; [exact H1 |].
        eapply evolves_trans; [exact H2 |].
        apply evolves_trans
          with (s2 := if many then print (LHeader arg) s2 else s2);
          [destruct many; auto with evol |].
        eapply evolves_trans; [exact E |].
        eapply evolves_trans; [| exact H4].
        destruct (before ++ rest)%list; auto with evol.
      * apply IH in H. destruct H as (s4 & H4 & Hrun).
        exists s4. split; [| exact Hrun].
        eapply evolves_trans; [exact H1 |].
        eapply evolves_trans; [exact H2 |].
        eapply evolves_trans; [apply evolves_list_file | exact H4].
    + apply IH in H. destruct H as (s4 & H4 & Hrun).
      exists s4. split; [| exact Hrun].
      eapply evolves_trans; [exact H1 | exact H4].
Qed.

Lemma evolves_keeps_line s s' l : evolves s s' -> In l (out s) -> In l (out s').
Proof.
  intros (_ & [lines H] & _) Hin. rewrite H. apply in_or_app. now left.
Qed.

Lemma evolves_keeps_bit s s' i :
  evolves s s' ->
  Z.testbit (err_code s) i = true -> Z.testbit (err_code s') i = true.
Proof. intros H. apply accumulates_keeps_bits, evolves_accumulates, H. Qed.

Lemma not_found_bit_set what path s :
  Z.testbit (err_code (handle_error what path ENOENT s)) 3 = true.
Proof.
  rewrite err_code_handle_error, Z.lor_spec. cbn.
  apply orb_true_r.
Qed.

(** C9: for a path argument [t] that does not exist, wherever it
    stands among the arguments, the loop writes exactly one line for
    it, the diagnostic, lists nothing, leaves the counter alone, sets
    the general-error and not-found bits, and goes on with the
    remaining arguments; the run whose only argument is [t] returns
    at any depth bound; and whenever a run returns, its exit status
    has the not-found bit and its output has the diagnostic. *)
Theorem missing_target_is_reported (os : os_model) (t : string) :
  lstat os t = Err ENOENT ->
  (forall depth many l a R rest s,
      let s1 := handle_error "cannot access" t ENOENT s in
      list_targets os depth many l a R (t :: rest) s
      = list_targets os depth many l a R rest s1
      /\ out s1 = (out s ++ [LDiag "cannot access" t ENOENT])%list
      /\ file_count s1 = file_count s
      /\ err_code s1 = Z.lor (err_code s) (Z.lor BIT_ERROR BIT_NOT_FOUND))
  /\ (forall depth o,
         ls_main os depth o [t]
         = Some (let s1 := handle_error "cannot access" t ENOENT
                             (initial_state o) in
                 if opt_n o then print (LTotal 0) s1 else s1))
  /\ (forall depth o before rest s',
         ls_main os depth o (before ++ t :: rest) = Some s' ->
         Z.testbit (err_code s') 3 = true
         /\ In (LDiag "cannot access" t ENOENT) (out s')).
Proof.
  intros Hmiss. split; [| split].
  - intros depth many l a R rest s s1. subst s1.
    split; [apply list_targets_missing, Hmiss |].
    split; [apply out_handle_error |].
    split; [apply file_count_handle_error |].
    apply err_code_handle_error.
  - intros depth o. unfold ls_main.
    rewrite (list_targets_missing os depth _ _ _ _ t ENOENT [] _ Hmiss).
    cbn [list_targets]. rewrite count_only_handle_error.
    rewrite file_count_handle_error. reflexivity.
  - intros depth o before rest s' H. unfold ls_main in H.
    destruct (before ++ t :: rest)%list as [| x xs] eqn:Eargs.
    { destruct before; discriminate. }
    rewrite <- Eargs in H.
    destruct (list_targets os depth
                (1 <? Z.of_nat (List.length (before ++ t :: rest)))
                (opt_l o) (opt_a o) (opt_R o) (before ++ t :: rest)
                (initial_state o)) as [s1 |] eqn:E; [| discriminate].
    injection H as <-.
    apply list_targets_reaches in E. destruct E as (s2 & _ & E).
    rewrite (list_targets_missing os depth _ _ _ _ t ENOENT rest s2 Hmiss) in E.
    apply evolves_list_targets in E.
    assert (E' : evolves (handle_error "cannot access" t ENOENT s2)
                   (if count_only s1 then print (LTotal (file_count s1)) s1
                    else s1)).
    { eapply evolves_trans; [exact E |].
      destruct (count_only s1); auto with evol. }
    split.
    + eapply evolves_keeps_bit; [exact E' | apply not_found_bit_set].
    + eapply evolves_keeps_line; [exact E' |].
      rewrite out_handle_error. apply in_or_app. right. now left.
Qed.

Lemma missing_target_is_reported_witness :
  lstat os_tree "nope" = Err ENOENT
  /\ ls_main os_tree 0 no_options ["nope"]
     = Some (mkState 72 0 false false [LDiag "cannot access" "nope" ENOENT]).
Proof.
  split; [reflexivity |].
  destruct (missing_target_is_reported os_tree "nope" eq_refl) as (_ & H & _).
  rewrite (H 0%nat no_options). reflexivity.
Defined.

(** ** C4: a directory that cannot be opened *)

(** C4, as the code has it: when the directory stream cannot be
    opened, the walk returns (at any positive depth bound) having
    recorded the failure and written the diagnostic line and no entry
    line; in recursive mode the header line naming the directory has
    already been written before the attempt to open it. *)
Theorem list_dir_open_failure (os : os_model) (depth : nat) (dirname : string)
    (l a R : bool) (s : state) (e : Z) :
  opendir os dirname = Err e ->
  exists s',
    list_dir os (S depth) dirname l a R s = Some s'
    /\ out s' = (out s ++ (if R then [LHeader dirname] else [])
                 ++ [LDiag "Error opening directory" dirname e])%list
    /\ file_count s' = file_count s
    /\ Z.testbit (err_code s') 6 = true
    /\ accumulates s s'.
Proof.
  intros Hopen. eexists. split.
  - cbn [list_dir]. rewrite Hopen. reflexivity.
  - split; [| split; [| split]].
    + rewrite out_handle_error. destruct R; cbn; [| reflexivity].
      now rewrite <- app_assoc.
    + rewrite file_count_handle_error. now destruct R.
    + rewrite err_code_handle_error, Z.lor_spec.
      replace (Z.testbit (Z.lor BIT_ERROR _) 6) with true;
        [apply orb_true_r |].
      destruct (e =? ENOENT); [| destruct ((e =? EACCES) || (e =? EPERM))];
        reflexivity.
    + apply evolves_accumulates.
      eapply evolves_trans; [| apply evolves_handle_error].
      destruct R; auto with evol.
Qed.

Lemma list_dir_open_failure_witness :
  exists s',
    list_dir os_tree 1 "locked" false false false (initial_state no_options)
    = Some s'
    /\ out s' = [LDiag "Error opening directory" "locked" EACCES].
Proof.
  destruct (list_dir_open_failure os_tree 0 "locked" false false false
              (initial_state no_options) EACCES eq_refl)
    as (s' & H & Hout & _).
  exists s'. split; [exact H | exact Hout].
Defined.

(** C4 as stated fails in recursive mode: the header of the directory
    is on standard output although the directory could not be opened. *)
Lemma list_dir_open_failure_counterexample :
  opendir os_tree "locked" = Err EACCES
  /\ exists s',
       list_dir os_tree 1 "locked" false false true (initial_state only_R)
       = Some s'
       /\ out s' = [LHeader "locked";
                    LDiag "Error opening directory" "locked" EACCES]
       /\ filter (fun l => negb (is_diag_line l)) (out s') <> [].
Proof.
  split; [reflexivity |].
  eexists. split; [reflexivity |]. split; [reflexivity |]. discriminate.
Qed.

(** ** The long-format line, column by column *)

Lemma append_assoc (a b c : string) : ((a ++ b) ++ c = a ++ (b ++ c))%string.
Proof. induction a as [| ch a IH]; cbn; [reflexivity | now rewrite IH]. Qed.

Lemma or_err_code_twice b1 b2 s :
  or_err_code b2 (or_err_code b1 s) = or_err_code (Z.lor b1 b2) s.
Proof. unfold or_err_code. cbn. now rewrite Z.lor_assoc. Qed.

Lemma or_err_code_0 s : or_err_code 0 s = s.
Proof. destruct s. unfold or_err_code. cbn. now rewrite Z.lor_0_r. Qed.

Lemma list_file_long os pathandname name s sb :
  count_only s = false ->
  lstat os pathandname = Ok sb ->
  list_file os pathandname name true s
  = print (LEntry (long_line os (human_readable s) pathandname name sb))
          (or_err_code (name_lookup_bits os sb) s).
Proof.
  intros Hc Hl. unfold list_file. rewrite Hc, Hl.
  unfold long_line, mode_columns, owner_column, group_column, id_column,
    size_column, date_column, name_column, name_lookup_bits,
    uname_for_uid, group_for_gid.
  destruct (getpwuid os (st_uid sb)), (getgrgid os (st_gid sb));
    cbv zeta; rewrite ?or_err_code_twice;
    cbn [human_readable or_err_code];
    destruct (human_readable s);
    destruct (S_ISLNK (st_mode sb));
    try destruct (readlink os pathandname);
    rewrite ?append_assoc; cbn [Z.lor Z.shiftl Pos.lor Pos.iter Pos.succ];
    try reflexivity;
    try (rewrite <- (or_err_code_0 s) at 1; reflexivity).
Qed.

(** ** Human-readable sizes *)

Lemma double_of_long_long_small (size : Z) :
  size < 1024 -> double_of_long_long size = size \/ double_of_long_long size <= 0.
Proof.
  intros H. unfold double_of_long_long.
  destruct (Z.leb_spec (Z.log2 (Z.abs size) - 52) 0) as [He | He];
    [now left |].
  right. cbv zeta.
  assert (Hs : size < 0).
  { destruct (Z_lt_le_dec size 0) as [Hn | Hp]; [exact Hn |].
    exfalso. rewrite Z.abs_eq in He by lia.
    assert (Z.log2 size <= Z.log2 1024) by (apply Z.log2_le_mono; lia).
    change (Z.log2 1024) with 10 in *. lia. }
  rewrite Z.sgn_neg by lia.
  set (e := Z.log2 (Z.abs size) - 52) in *.
  assert (0 < 2 ^ e) by (apply Z.pow_pos_nonneg; lia).
  assert (0 <= Z.abs size / 2 ^ e) by (apply Z.div_pos; lia).
  destruct (_ <? _); [nia |].
  destruct (_ <? _); [nia |].
  destruct (Z.even _); nia.
Qed.

Lemma double_of_long_long_large (size : Z) :
  1024 <= size -> 1024 <= double_of_long_long size.
Proof.
  intros H. unfold double_of_long_long.
  destruct (Z.leb_spec (Z.log2 (Z.abs size) - 52) 0) as [He | He];
    [exact H |].
  cbv zeta. rewrite Z.sgn_pos, Z.abs_eq in * by lia.
  set (e := Z.log2 size - 52) in *.
  assert (He2 : 0 < 2 ^ e) by (apply Z.pow_pos_nonneg; lia).
  assert (Hq : 2 ^ 52 <= size / 2 ^ e).
  { apply Z.div_le_lower_bound; [lia |].
    rewrite Z.mul_comm, <- Z.pow_add_r by lia.
    replace (52 + e) with (Z.log2 size) by (subst e; lia).
    apply Z.log2_spec. lia. }
  change (2 ^ 52) with 4503599627370496 in Hq.
  destruct (_ <? _); [nia |].
  destruct (_ <? _); [nia |].
  destruct (Z.even _); nia.
Qed.

(** What the loop computes when it is entered with [unit_index + n =
    6]: it divides [m] times and stops either at the last unit or
    below 1024. *)
Lemma scale_units_spec (n : nat) :
  forall (x : Q) (k : nat),
    (k + n = 6)%nat ->
    exists m : nat,
      (m <= n)%nat
      /\ snd (scale_units n x k) = (k + m)%nat
      /\ (fst (scale_units n x k) == x / inject_Z (1024 ^ Z.of_nat m))%Q
      /\ ((m < n)%nat -> (fst (scale_units n x k) < 1024)%Q)
      /\ ((0 < m)%nat -> (1 <= fst (scale_units n x k))%Q)
      /\ (m = 0%nat <-> ((x < 1024)%Q \/ n = 0%nat)).
Proof.
  induction n as [| n IH]; intros x k Hk.
  - exists 0%nat. cbn [scale_units fst snd].
    split; [lia |]. split; [lia |].
    split; [change (inject_Z (1024 ^ Z.of_nat 0)) with 1%Q; field |].
    split; [intros; lia |]. split; [intros; lia |].
    split; [now right | reflexivity].
  - cbn [scale_units].
    assert (Hlt : (k <? 6)%nat = true) by (apply Nat.ltb_lt; lia).
    rewrite Hlt, andb_true_r.
    destruct (Qle_bool 1024 x) eqn:Hx.
    + apply Qle_bool_iff in Hx.
      destruct (IH (x / 1024)%Q (S k)) as (m & Hm & Hj & Hy & Hlo & Hhi & Hz);
        [lia |].
      exists (S m).
      split; [lia |]. split; [rewrite Hj; lia |].
      split; [| split; [| split; [| split]]].
      * rewrite Hy. rewrite Nat2Z.inj_succ, Z.pow_succ_r by lia.
        rewrite inject_Z_mult.
        assert (Hpos : (0 < inject_Z (1024 ^ Z.of_nat m))%Q).
        { change 0%Q with (inject_Z 0). rewrite <- Zlt_Qlt.
          apply Z.pow_pos_nonneg; lia. }
        change (inject_Z 1024) with 1024%Q.
        field.
        intros Habs. rewrite Habs in Hpos. now apply Qlt_irrefl in Hpos.
      * intros Hmn. apply Hlo. lia.
      * intros _. destruct m as [| m'].
        -- rewrite Hy. change (inject_Z (1024 ^ Z.of_nat 0)) with 1%Q.
           apply Qle_shift_div_l; [reflexivity |].
           apply Qle_shift_div_l; [reflexivity |]. lra.
        -- apply Hhi. lia.
      * intros; lia.
      * intros [Hsmall | Hn0]; [lra | lia].
    + assert (Hsmall : (x < 1024)%Q).
      { apply Qnot_le_lt. intros Hle.
        apply Qle_bool_iff in Hle. congruence. }
      exists 0%nat. cbn [fst snd].
      split; [lia |]. split; [lia |].
      split; [change (inject_Z (1024 ^ Z.of_nat 0)) with 1%Q; field |].
      split; [intros; exact Hsmall |]. split; [intros; lia |].
      split; [now left | reflexivity].
Qed.

(** Six iterations are all the loop can make: a larger bound changes
    nothing. *)
Lemma scale_units_bound_enough (n extra : nat) :
  forall (x : Q) (k : nat),
    (6 <= k + n)%nat ->
    scale_units (n + extra) x k = scale_units n x k.
Proof.
  induction n as [| n IH]; intros x k Hk.
  - cbn [Nat.add scale_units]. destruct extra as [| extra]; [reflexivity |].
    cbn [scale_units].
    replace (k <? 6)%nat with false by (symmetry; apply Nat.ltb_ge; lia).
    now rewrite andb_false_r.
  - cbn [Nat.add scale_units].
    destruct (Qle_bool 1024 x && (k <? 6)%nat); [| reflexivity].
    apply IH. lia.
Qed.

Lemma round_half_even_scale (n d c : Z) :
  0 < d -> 0 < c -> round_half_even (n * c) (d * c) = round_half_even n d.
Proof.
  intros Hd Hc. unfold round_half_even.
  rewrite Z.div_mul_cancel_r by lia.
  rewrite Z.mul_mod_distr_r by lia.
  destruct (Z.ltb_spec (2 * (n mod d * c)) (d * c)),
           (Z.ltb_spec (2 * (n mod d)) d); try nia; try reflexivity.
  destruct (Z.ltb_spec (d * c) (2 * (n mod d * c))),
           (Z.ltb_spec d (2 * (n mod d))); try nia; reflexivity.
Qed.

Lemma tenths_Qeq (x y : Q) : (x == y)%Q -> tenths x = tenths y.
Proof.
  unfold Qeq, tenths. intros H.
  rewrite <- (round_half_even_scale (10 * Qnum x) (Z.pos (Qden x))
                (Z.pos (Qden y))) by lia.
  rewrite <- (round_half_even_scale (10 * Qnum y) (Z.pos (Qden y))
                (Z.pos (Qden x))) by lia.
  f_equal; lia.
Qed.

Lemma tenths_bounds (x : Q) :
  (0 <= x)%Q -> (x < 1024)%Q -> 0 <= tenths x <= 10240.
Proof.
  unfold Qle, Qlt, tenths, round_half_even. cbn [Qnum Qden].
  intros H0 H1.
  set (n := Qnum x) in *. set (d := Z.pos (Qden x)) in *.
  assert (Hd : 0 < d) by (subst d; lia).
  assert (Hq0 : 0 <= 10 * n / d) by (apply Z.div_pos; lia).
  assert (Hq1 : 10 * n / d < 10240)
    by (apply Z.div_lt_upper_bound; lia).
  destruct (_ <? _); [lia |].
  destruct (_ <? _); [lia |].
  destruct (Z.even _); lia.
Qed.

Lemma truncate_short (n : nat) (s : string) :
  (String.length s <= n)%nat -> truncate n s = s.
Proof.
  unfold truncate. revert n.
  induction s as [| c s IH]; intros n H.
  - now destruct n.
  - destruct n as [| n]; cbn in H; [lia |].
    cbn. f_equal. apply IH. lia.
Qed.

Lemma length_append (a b : string) :
  String.length (a ++ b) = (String.length a + String.length b)%nat.
Proof. induction a as [| c a IH]; cbn; [reflexivity | now rewrite IH]. Qed.

(** Checked by evaluation over the whole range. *)
Lemma fmt_tenths_length (t : Z) :
  0 <= t <= 10240 -> (String.length (fmt_tenths t) <= 6)%nat.
Proof.
  intros Ht.
  assert (Hall : forallb
                   (fun n => (String.length (fmt_tenths (Z.of_nat n)) <=? 6)%nat)
                   (seq 0 (Z.to_nat 10241)) = true) by (vm_compute; reflexivity).
  rewrite forallb_forall in Hall.
  specialize (Hall (Z.to_nat t)).
  rewrite Z2Nat.id in Hall by lia.
  apply Nat.leb_le, Hall, in_seq. lia.
Qed.

Lemma dec_length_small (size : Z) :
  0 <= size < 1024 -> (String.length (dec size) <= 4)%nat.
Proof.
  intros Hs.
  assert (Hall : forallb
                   (fun n => (String.length (dec (Z.of_nat n)) <=? 4)%nat)
                   (seq 0 (Z.to_nat 1024)) = true) by (vm_compute; reflexivity).
  rewrite forallb_forall in Hall.
  specialize (Hall (Z.to_nat size)).
  rewrite Z2Nat.id in Hall by lia.
  apply Nat.leb_le, Hall, in_seq. lia.
Qed.

Lemma unit_length (k : nat) : (String.length (nth k units EmptyString) <= 1)%nat.
Proof. do 7 (destruct k as [| k]; [cbn; lia |]). destruct k; cbn; lia. Qed.

Lemma format_size_human_bytes (size : Z) :
  size < 1024 -> format_size_human size 16 = truncate 15 (dec size).
Proof.
  intros Hs. unfold format_size_human.
  destruct (scale_units_spec 6 (inject_Z (double_of_long_long size)) 0 eq_refl)
    as (m & _ & Hj & _ & _ & _ & Hz).
  destruct (scale_units 6 (inject_Z (double_of_long_long size)) 0)
    as [y j]. cbn [fst snd] in *.
  assert (Hm : m = 0%nat).
  { apply Hz. left.
    change 1024%Q with (inject_Z 1024). rewrite <- Zlt_Qlt.
    destruct (double_of_long_long_small size Hs); lia. }
  subst m j. reflexivity.
Qed.

Lemma double_of_long_long_upper (size : Z) :
  0 <= size -> double_of_long_long size <= 2 * size.
Proof.
  intros H. unfold double_of_long_long.
  destruct (Z.leb_spec (Z.log2 (Z.abs size) - 52) 0) as [He | He]; [lia |].
  cbv zeta.
  assert (Hs : 0 < size).
  { destruct (Z.eq_dec size 0) as [-> | Hn]; [cbn in He; lia | lia]. }
  rewrite Z.sgn_pos, Z.abs_eq in * by lia.
  set (e := Z.log2 size - 52) in *.
  assert (He2 : 0 < 2 ^ e) by (apply Z.pow_pos_nonneg; lia).
  assert (Hq : 2 ^ e * (size / 2 ^ e) <= size)
    by (apply Z.mul_div_le; lia).
  assert (Hp : 2 ^ e <= size).
  { transitivity (2 ^ Z.log2 size); [| apply Z.log2_spec; lia].
    apply Z.pow_le_mono_r; lia. }
  destruct (_ <? _); [nia |].
  destruct (_ <? _); [nia |].
  destruct (Z.even _); nia.
Qed.

Lemma format_size_human_scaled (size : Z) :
  1024 <= size < 2 ^ 63 ->
  exists k : nat,
    (1 <= k <= 6)%nat
    /\ (1 <= inject_Z (double_of_long_long size)
             / inject_Z (1024 ^ Z.of_nat k))%Q
    /\ ((k < 6)%nat ->
        (inject_Z (double_of_long_long size)
         / inject_Z (1024 ^ Z.of_nat k) < 1024)%Q)
    /\ format_size_human size 16
       = fmt_1f (inject_Z (double_of_long_long size)
                 / inject_Z (1024 ^ Z.of_nat k))
         ++ nth k units EmptyString.
Proof.
  intros Hs. unfold format_size_human.
  pose proof (double_of_long_long_large size (proj1 Hs)) as Hd.
  set (d := double_of_long_long size) in *.
  destruct (scale_units_spec 6 (inject_Z d) 0 eq_refl)
    as (m & Hm & Hj & Hy & Hlo & Hhi & Hz).
  destruct (scale_units 6 (inject_Z d) 0) as [y j]. cbn [fst snd] in *.
  assert (Hm0 : (0 < m)%nat).
  { destruct m; [| lia]. exfalso.
    destruct (proj1 Hz eq_refl) as [Hlt | Habs]; [| lia].
    change 1024%Q with (inject_Z 1024) in Hlt.
    rewrite <- Zlt_Qlt in Hlt. lia. }
  subst j. exists m.
  split; [lia |].
  split; [rewrite <- Hy; apply Hhi, Hm0 |].
  split; [intros Hk; rewrite <- Hy; apply Hlo; lia |].
  destruct m as [| m']; [lia |]. cbn [Nat.eqb].
  unfold fmt_1f. rewrite (tenths_Qeq _ _ Hy).
  apply truncate_short. rewrite length_append.
  pose proof (unit_length (S m')) as Hu.
  assert (Hx : (y < 1024)%Q).
  { destruct (Nat.eq_dec (S m') 6) as [E6 | Hne]; [| apply Hlo; lia].
    rewrite Hy, E6.
    apply Qlt_shift_div_r; [reflexivity |].
    change 1024%Q with (inject_Z 1024).
    rewrite <- inject_Z_mult, <- Zlt_Qlt.
    pose proof (double_of_long_long_upper size ltac:(lia)) as Hup.
    fold d in Hup.
    change (2 ^ 63) with 9223372036854775808 in Hs.
    change (1024 * 1024 ^ Z.of_nat 6) with 1180591620717411303424. lia. }
  assert (Hx0 : (0 <= y)%Q).
  { apply Qle_trans with (y := 1%Q); [discriminate | apply Hhi, Hm0]. }
  rewrite <- (tenths_Qeq _ _ Hy).
  pose proof (fmt_tenths_length _ (tenths_bounds y Hx0 Hx)). lia.
Qed.




(** ** C1: owner and group names that cannot be resolved *)




(** ** C5: the descent into subdirectories *)

Lemma firstn_app_one {A} (acc rest : list A) (x : A) (cap : nat) :
  (List.length acc < cap)%nat ->
  ((acc ++ [x]) ++ firstn (cap - List.length (acc ++ [x])) rest
   = acc ++ firstn (cap - List.length acc) (x :: rest))%list.
Proof.
  intros H. rewrite length_app. cbn [List.length].
  replace (cap - List.length acc)%nat
    with (S (cap - (List.length acc + 1)))%nat by lia.
  cbn [firstn]. now rewrite <- app_assoc.
Qed.

Lemma scan_entries_split os dirname l a entries :
  forall acc s,
    scan_entries os dirname l a true entries (acc, s)
    = ((acc ++ firstn (1024 - List.length acc)
                 (map (truncate 255)
                    (discovered_subdirs os dirname a entries)))%list,
       list_entries os dirname l a entries s).
Proof.
  unfold discovered_subdirs, list_entries, visible_entries.
  induction entries as [| n rest IH]; intros acc s.
  - cbn [filter map scan_entries fold_left].
    now rewrite firstn_nil, app_nil_r.
  - cbn [scan_entries scan_entry filter].
    destruct (negb a && starts_with_dot n); cbn [negb]; [apply IH |].
    cbn [filter map fold_left]. unfold is_dot_or_dotdot at 1.
    destruct ((n =? ".")%string || (n =? "..")%string); cbn [negb];
      [apply IH |].
    cbn [filter map].
    destruct (lstat_is_dir os (fullpath_of dirname n)); [| apply IH].
    cbn [map].
    destruct (Z.ltb_spec (Z.of_nat (List.length acc)) 1024) as [Hlt | Hge].
    + rewrite IH. f_equal. apply firstn_app_one. lia.
    + rewrite IH. f_equal.
      replace (1024 - List.length acc)%nat with 0%nat by lia.
      reflexivity.
Qed.

Lemma for_each_nil_or_some {A} (body : A -> state -> option state) l s :
  (if (0 <? Z.of_nat (List.length l)) then for_each body l s else Some s)
  = for_each body l s.
Proof. destruct l; reflexivity. Qed.

Lemma list_dir_unfold os depth dirname l a s entries :
  opendir os dirname = Ok entries ->
  list_dir os (S depth) dirname l a true s
  = for_each
      (fun subdir s => list_dir os depth subdir l a true (print LBlank s))
      (stored_subdirs os dirname a entries)
      (list_entries os dirname l a entries (print (LHeader dirname) s)).
Proof.
  intros Hopen. cbn [list_dir]. rewrite Hopen, scan_entries_split.
  cbn [app List.length andb]. rewrite Nat.sub_0_r.
  apply (for_each_nil_or_some
           (fun subdir s => list_dir os depth subdir l a true (print LBlank s))).
Qed.

Lemma truncate_length (n : nat) (s : string) :
  (String.length (truncate n s) <= n)%nat.
Proof.
  unfold truncate. revert n.
  induction s as [| c s IH]; intros [| n]; cbn; try lia.
  specialize (IH n). lia.
Qed.

Lemma in_firstn {A} (n : nat) (l : list A) (x : A) :
  In x (firstn n l) -> In x l.
Proof.
  intros H. rewrite <- (firstn_skipn n l). apply in_or_app. now left.
Qed.

Lemma map_id_on {A} (f : A -> A) (l : list A) :
  (forall x, In x l -> f x = x) -> map f l = l.
Proof.
  induction l as [| x l IH]; intros H; cbn; [reflexivity |].
  rewrite H by now left. f_equal. apply IH. intros y Hy. apply H. now right.
Qed.

Lemma stored_subdirs_within_bounds os dirname a entries :
  (forall n, In n entries ->
             (String.length (dirname ++ "/" ++ n) <= 255)%nat) ->
  (List.length entries <= 1024)%nat ->
  stored_subdirs os dirname a entries
  = filter (lstat_is_dir os)
      (map (fun n => dirname ++ "/" ++ n)
         (filter (fun n => negb (is_dot_or_dotdot n))
            (visible_entries a entries))).
Proof.
  intros Hlen Hcount. unfold stored_subdirs, discovered_subdirs.
  set (names := filter (fun n => negb (is_dot_or_dotdot n))
                  (visible_entries a entries)).
  assert (Hin : forall n, In n names -> In n entries).
  { intros n Hn. subst names. unfold visible_entries in Hn.
    apply filter_In in Hn. destruct Hn as [Hn _].
    apply filter_In in Hn. tauto. }
  assert (Hmap : map (fullpath_of dirname) names
                 = map (fun n => dirname ++ "/" ++ n) names).
  { apply map_ext_in. intros n Hn. unfold fullpath_of.
    apply truncate_short. specialize (Hlen n (Hin n Hn)). lia. }
  rewrite Hmap.
  rewrite map_id_on.
  - apply firstn_all2.
    etransitivity; [apply filter_length_le |].
    rewrite length_map. subst names. unfold visible_entries.
    etransitivity; [apply filter_length_le |].
    etransitivity; [apply filter_length_le | exact Hcount].
  - intros p Hp. apply filter_In in Hp. destruct Hp as [Hp _].
    apply in_map_iff in Hp. destruct Hp as (n & <- & Hn).
    apply truncate_short, Hlen, Hin, Hn.
Qed.

(** C5, as the code has it: in recursive mode, once the pass over the
    direct entries is complete, the walk descends, with a blank line
    before each and with the same options, into the subdirectory
    entries it found (not [.] or [..]) that fit its fixed buffers: at
    most the first 1024 of them, each path cut to 255 bytes.  For a
    directory with at most 1024 entries whose paths have at most 255
    bytes these are all the subdirectories found. *)
Theorem list_dir_descends (os : os_model) (depth : nat) (dirname : string)
    (l a : bool) (s : state) (entries : list string) :
  opendir os dirname = Ok entries ->
  list_dir os (S depth) dirname l a true s
  = for_each
      (fun subdir s => list_dir os depth subdir l a true (print LBlank s))
      (stored_subdirs os dirname a entries)
      (list_entries os dirname l a entries (print (LHeader dirname) s))
  /\ (List.length (stored_subdirs os dirname a entries) <= 1024)%nat
  /\ (forall p, In p (stored_subdirs os dirname a entries) ->
                (String.length p <= 255)%nat)
  /\ ((forall n, In n entries ->
                 (String.length (dirname ++ "/" ++ n) <= 255)%nat) ->
      (List.length entries <= 1024)%nat ->
      stored_subdirs os dirname a entries
      = filter (lstat_is_dir os)
          (map (fun n => dirname ++ "/" ++ n)
             (filter (fun n => negb (is_dot_or_dotdot n))
                (visible_entries a entries)))).
Proof.
  intros Hopen.
  split; [apply list_dir_unfold, Hopen |].
  split; [apply firstn_le_length |].
  split; [| apply stored_subdirs_within_bounds].
  intros p Hp. unfold stored_subdirs in Hp.
  apply in_firstn, in_map_iff in Hp. destruct Hp as (q & <- & _).
  apply truncate_length.
Qed.

Lemma list_dir_descends_witness :
  list_dir os_tree 2 "root" false false true (initial_state only_R)
  = Some (mkState 0 0 false false
            [LHeader "root"; LEntry "a.txt"; LEntry "sub/"; LBlank;
             LHeader "root/sub"; LEntry "b.txt"]).
Proof.
  destruct (list_dir_descends os_tree 1 "root" false false
              (initial_state only_R) ["a.txt"; "sub"] eq_refl) as (H & _).
  rewrite H. reflexivity.
Defined.

(** C5 as stated fails on path length: the subdirectory with the
    254-character name is an entry of [d] and a directory, but the
    walk descends into the path cut to 255 bytes, which does not
    exist, and never lists the subdirectory itself. *)
Lemma list_dir_path_bound_counterexample :
  opendir os_deep "d" = Ok [long_name]
  /\ lstat_is_dir os_deep ("d/" ++ long_name) = true
  /\ truncate 255 ("d/" ++ long_name) <> "d/" ++ long_name
  /\ list_dir os_deep 3 "d" false false true (initial_state only_R)
     = Some (mkState 72 0 false false
               [LHeader "d"; LEntry (long_name ++ "/"); LBlank;
                LHeader (truncate 255 ("d/" ++ long_name));
                LDiag "Error opening directory"
                      (truncate 255 ("d/" ++ long_name)) ENOENT]).
Proof.
  split; [reflexivity |]. split; [reflexivity |].
  split; [| vm_compute; reflexivity].
  intros H. apply (f_equal String.length) in H. vm_compute in H. discriminate.
Qed.

(** The bound on the number of subdirectories: of 1025 subdirectories
    only 1024 are visited. *)
Lemma list_dir_fanout_bound_example :
  exists entries s',
    opendir os_wide "w" = Ok entries
    /\ List.length (discovered_subdirs os_wide "w" false entries) = 1025%nat
    /\ list_dir os_wide 2 "w" false false true (initial_state only_R) = Some s'
    /\ List.length (filter is_blank_line (out s')) = 1024%nat
    /\ ~ In (LHeader "w/s1024") (out s').
Proof.
  eexists. eexists.
  split; [reflexivity |].
  split; [vm_compute; reflexivity |].
  split; [vm_compute; reflexivity |].
  split; [vm_compute; reflexivity |].
  intros Hin.
  assert (Hex : existsb (fun l => match l with
                                  | LHeader h => (h =? "w/s1024")%string
                                  | _ => false
                                  end) (out _) = true)
    by (apply existsb_exists; eexists; split; [exact Hin | reflexivity]).
  vm_compute in Hex. discriminate.
Qed.

(** ** Counting instead of listing *)

Lemma suppressed_app l1 l2 :
  suppressed (l1 ++ l2) = (suppressed l1 ++ suppressed l2)%list.
Proof. apply filter_app. Qed.

Lemma count_of_entries_app l1 l2 :
  count_of_entries (l1 ++ l2) = count_of_entries l1 + count_of_entries l2.
Proof.
  unfold count_of_entries. rewrite filter_app, length_app. lia.
Qed.

Lemma mirrors_refl sc sb :
  count_only sc = true -> count_only sb = false -> mirrors sc sb sc sb.
Proof.
  intros Hc Hb. split; [exact Hc |]. split; [exact Hb |].
  exists []. cbn. rewrite !app_nil_r. repeat split. lia.
Qed.

Lemma mirrors_trans sc sb sc1 sb1 sc2 sb2 :
  mirrors sc sb sc1 sb1 -> mirrors sc1 sb1 sc2 sb2 -> mirrors sc sb sc2 sb2.
Proof.
  intros (_ & _ & l1 & Hb1 & Hc1 & Hf1 & Ht1) (Hc & Hb & l2 & Hb2 & Hc2 & Hf2 & Ht2).
  split; [exact Hc |]. split; [exact Hb |].
  exists (l1 ++ l2)%list.
  rewrite Hb2, Hb1, Hc2, Hc1, Hf2, Hf1, suppressed_app, count_of_entries_app,
    forallb_app, Ht1, Ht2, <- !app_assoc.
  repeat split. lia.
Qed.

Lemma mirrors_print l sc sb :
  count_only sc = true -> count_only sb = false ->
  per_entry_line l = false -> is_total_line l = false ->
  mirrors sc sb (print l sc) (print l sb).
Proof.
  intros Hc Hb Hl Ht. split; [exact Hc |]. split; [exact Hb |].
  exists [l]. unfold suppressed, count_of_entries. cbn. rewrite Hl, Ht. cbn.
  repeat split. lia.
Qed.

Lemma mirrors_handle_error what path e sc sb :
  count_only sc = true -> count_only sb = false ->
  (what =? "cannot access")%string = false ->
  mirrors sc sb (handle_error what path e sc) (handle_error what path e sb).
Proof.
  intros Hc Hb Hw.
  split; [now rewrite count_only_handle_error |].
  split; [now rewrite count_only_handle_error |].
  exists [LDiag what path e].
  rewrite !out_handle_error, !file_count_handle_error.
  unfold suppressed, count_of_entries. cbn. rewrite Hw. cbn.
  repeat split. lia.
Qed.

Lemma list_file_count_only os p n l s :
  count_only s = true -> list_file os p n l s = incr_file_count s.
Proof. intros H. unfold list_file. now rewrite H. Qed.

(** On an unchanged file system [is_dir] does not fail where
    [test_file] succeeded. *)
Lemma is_dir_after_test_file os p s s1 :
  test_file os p s = (true, s1) ->
  s1 = s /\ exists sb, lstat os p = Ok sb
                       /\ is_dir os p s1 = (S_ISDIR (st_mode sb), s1).
Proof.
  unfold test_file, is_dir. destruct (lstat os p) as [sb | e]; intros H.
  - injection H as <-. split; [reflexivity |]. now exists sb.
  - discriminate.
Qed.

(** Listing one entry writes exactly one line. *)
Lemma list_file_one_line os p n l s :
  count_only s = false ->
  exists x,
    per_entry_line x = true /\ is_total_line x = false
    /\ out (list_file os p n l s) = (out s ++ [x])%list
    /\ count_only (list_file os p n l s) = false
    /\ file_count (list_file os p n l s) = file_count s.
Proof.
  intros Hc. destruct l.
  - destruct (lstat os p) as [sb | e] eqn:Hl.
    + rewrite (list_file_long os p n s sb Hc Hl).
      exists (LEntry (long_line os (human_readable s) p n sb)).
      repeat split; try reflexivity; exact Hc.
    + unfold list_file. rewrite Hc, Hl.
      exists (LDiag "cannot access" p e).
      rewrite out_handle_error, count_only_handle_error,
        file_count_handle_error.
      repeat split; try reflexivity; exact Hc.
  - unfold list_file. rewrite Hc. unfold test_file, is_dir.
    destruct (lstat os p) as [sb | e] eqn:Hl; cbn [negb].
    + eexists (LEntry _).
      repeat split; try reflexivity; exact Hc.
    + exists (LDiag "cannot access" p e).
      rewrite out_handle_error, count_only_handle_error,
        file_count_handle_error.
      repeat split; try reflexivity; exact Hc.
Qed.

Lemma mirrors_list_file os p n lc lb sc sb :
  count_only sc = true -> count_only sb = false ->
  mirrors sc sb (list_file os p n lc sc) (list_file os p n lb sb).
Proof.
  intros Hc Hb. rewrite (list_file_count_only os p n lc sc Hc).
  destruct (list_file_one_line os p n lb sb Hb)
    as (x & Hx & Ht & Hout & Hflag & _).
  split; [exact Hc |]. split; [exact Hflag |].
  exists [x]. unfold suppressed, count_of_entries. cbn. rewrite Hx, Ht. cbn.
  rewrite app_nil_r. repeat split; try exact Hout; lia.
Qed.

Lemma mirrors_list_entries os d lc lb a entries :
  forall sc sb,
    count_only sc = true -> count_only sb = false ->
    mirrors sc sb (list_entries os d lc a entries sc)
                  (list_entries os d lb a entries sb).
Proof.
  unfold list_entries.
  induction (visible_entries a entries) as [| n names IH]; intros sc sb Hc Hb.
  - now apply mirrors_refl.
  - cbn [fold_left].
    pose proof (mirrors_list_file os (fullpath_of d n) n lc lb sc sb Hc Hb)
      as H.
    eapply mirrors_trans; [exact H |].
    destruct H as (Hc1 & Hb1 & _). now apply IH.
Qed.

Lemma scan_entries_flat os dirname l a entries :
  forall acc s,
    scan_entries os dirname l a false entries (acc, s)
    = (acc, list_entries os dirname l a entries s).
Proof.
  unfold list_entries, visible_entries.
  induction entries as [| n rest IH]; intros acc s; [reflexivity |].
  cbn [scan_entries scan_entry filter].
  destruct (negb a && starts_with_dot n); cbn [negb fold_left]; apply IH.
Qed.

Lemma both_mirrors_for_each {A} (bc bb : A -> state -> option state) l :
  (forall x sc sb,
      count_only sc = true -> count_only sb = false ->
      both (mirrors sc sb) (bc x sc) (bb x sb)) ->
  forall sc sb,
    count_only sc = true -> count_only sb = false ->
    both (mirrors sc sb) (for_each bc l sc) (for_each bb l sb).
Proof.
  intros Hbody. induction l as [| x rest IH]; intros sc sb Hc Hb.
  - cbn. now apply mirrors_refl.
  - cbn [for_each]. specialize (Hbody x sc sb Hc Hb).
    destruct (bc x sc) as [sc1 |], (bb x sb) as [sb1 |]; cbn in Hbody;
      try contradiction; [| exact I].
    pose proof Hbody as (Hc1 & Hb1 & _).
    specialize (IH sc1 sb1 Hc1 Hb1).
    destruct (for_each bc rest sc1), (for_each bb rest sb1); cbn in IH |- *;
      try contradiction; [| exact I].
    eapply mirrors_trans; eassumption.
Qed.

Lemma both_mirrors_list_dir os depth :
  forall d lc lb a R sc sb,
    count_only sc = true -> count_only sb = false ->
    both (mirrors sc sb) (list_dir os depth d lc a R sc)
                         (list_dir os depth d lb a R sb).
Proof.
  induction depth as [| depth IH]; intros d lc lb a R sc sb Hc Hb;
    [exact I |].
  cbn [list_dir].
  set (sc0 := if R then print (LHeader d) sc else sc).
  set (sb0 := if R then print (LHeader d) sb else sb).
  assert (H0 : mirrors sc sb sc0 sb0).
  { subst sc0 sb0. destruct R; [now apply mirrors_print | now apply mirrors_refl]. }
  pose proof H0 as (Hc0 & Hb0 & _).
  destruct (opendir os d) as [entries | e].
  - destruct R.
    + rewrite !scan_entries_split. cbn [app List.length andb].
      rewrite !(for_each_nil_or_some
                  (fun subdir s => list_dir os depth subdir _ a true
                                     (print LBlank s))).
      pose proof (mirrors_list_entries os d lc lb a entries sc0 sb0 Hc0 Hb0)
        as H1.
      pose proof H1 as (Hc1 & Hb1 & _).
      assert (Hbody : forall x tc tb,
                 count_only tc = true -> count_only tb = false ->
                 both (mirrors tc tb)
                   (list_dir os depth x lc a true (print LBlank tc))
                   (list_dir os depth x lb a true (print LBlank tb))).
      { intros x tc tb Htc Htb.
        pose proof (mirrors_print LBlank tc tb Htc Htb eq_refl eq_refl) as Hm.
        pose proof Hm as (Hc2 & Hb2 & _).
        specialize (IH x lc lb a true _ _ Hc2 Hb2).
        destruct (list_dir os depth x lc a true (print LBlank tc)),
                 (list_dir os depth x lb a true (print LBlank tb));
          cbn in IH |- *; try contradiction; [| exact I].
        eapply mirrors_trans; [exact Hm | exact IH]. }
      pose proof (both_mirrors_for_each _ _
                    (firstn (1024 - 0)
                       (map (truncate 255) (discovered_subdirs os d a entries)))
                    Hbody _ _ Hc1 Hb1) as H2.
      destruct (for_each _ _ (list_entries os d lc a entries sc0)),
               (for_each _ _ (list_entries os d lb a entries sb0));
        cbn in H2 |- *; try contradiction; [| exact I].
      eapply mirrors_trans; [exact H0 |].
      eapply mirrors_trans; [exact H1 | exact H2].
    + rewrite !scan_entries_flat. cbn [andb both].
      eapply mirrors_trans; [exact H0 |].
      now apply mirrors_list_entries.
  - cbn [both]. eapply mirrors_trans; [exact H0 |].
    now apply mirrors_handle_error.
Qed.

Lemma list_entries_count_only os d l a entries s :
  count_only s = true ->
  list_entries os d l a entries s
  = add_file_count (Z.of_nat (List.length (visible_entries a entries))) s.
Proof.
  unfold list_entries. revert s.
  induction (visible_entries a entries) as [| n names IH]; intros s Hc.
  - destruct s. unfold add_file_count. cbn. f_equal. lia.
  - cbn [fold_left]. rewrite (list_file_count_only os _ n l s Hc).
    rewrite IH by exact Hc.
    unfold add_file_count, incr_file_count. cbn [err_code file_count count_only
      human_readable out List.length].
    f_equal. lia.
Qed.

(** C10: with count-only and recursive mode both on, the walk of a
    directory writes what the listing walk writes except the per-entry
    lines, so every header and every blank separator is still there,
    and it counts one for each per-entry line left out; listing an
    entry is then nothing but the increment, whatever the file system
    would answer about the entry; and the walk of a directory that can
    be opened is: the header, one increment per visible entry, then
    for each stored subdirectory a blank line and its walk. *)
Theorem count_only_recursive (os : os_model) (depth : nat) (dirname : string)
    (lc lb a : bool) (sc sb : state) :
  count_only sc = true -> count_only sb = false ->
  both (mirrors sc sb)
       (list_dir os depth dirname lc a true sc)
       (list_dir os depth dirname lb a true sb)
  /\ (forall os' pathandname name l,
         list_file os' pathandname name l sc = incr_file_count sc)
  /\ (forall entries,
         opendir os dirname = Ok entries ->
         list_dir os (S depth) dirname lc a true sc
         = for_each
             (fun subdir s =>
                list_dir os depth subdir lc a true (print LBlank s))
             (stored_subdirs os dirname a entries)
             (add_file_count
                (Z.of_nat (List.length (visible_entries a entries)))
                (print (LHeader dirname) sc))).
Proof.
  intros Hc Hb.
  split; [now apply both_mirrors_list_dir |].
  split; [intros; now apply list_file_count_only |].
  intros entries Hopen.
  rewrite (list_dir_unfold os depth dirname lc a sc entries Hopen).
  now rewrite list_entries_count_only.
Qed.

Lemma count_only_recursive_witness :
  list_dir os_tree 2 "root" false false true (initial_state only_n_R)
  = Some (mkState 0 3 true false
            [LHeader "root"; LBlank; LHeader "root/sub"])
  /\ both (mirrors (initial_state only_n_R) (initial_state only_R))
          (list_dir os_tree 2 "root" false false true
                    (initial_state only_n_R))
          (list_dir os_tree 2 "root" false false true (initial_state only_R)).
Proof.
  destruct (count_only_recursive os_tree 2 "root" false false false
              (initial_state only_n_R) (initial_state only_R)
              eq_refl eq_refl) as (Hboth & _ & _).
  destruct (count_only_recursive os_tree 1 "root" false false false
              (initial_state only_n_R) (initial_state only_R)
              eq_refl eq_refl) as (_ & _ & Hwalk).
  split; [| exact Hboth].
  rewrite (Hwalk ["a.txt"; "sub"] eq_refl). reflexivity.
Defined.

(** ** C2: the total of a counting run *)










(** ** C7: headers in recursive mode *)

Lemma list_dir_header_first os depth d l a s s' :
  list_dir os (S depth) d l a true s = Some s' ->
  evolves (print (LHeader d) s) s'.
Proof.
  intros H. cbn [list_dir] in H.
  destruct (opendir os d) as [entries | e].
  - pose proof (evolves_scan_entries os d l a true entries
                  ([], print (LHeader d) s)) as H1.
    destruct (scan_entries os d l a true entries ([], print (LHeader d) s))
      as [subs s1]. cbn [snd] in H1.
    eapply evolves_trans; [exact H1 |].
    destruct (true && (0 <? Z.of_nat (List.length subs))).
    + eapply evolves_for_each; [| exact H].
      intros sub t t' Ht. cbv beta in Ht.
      eapply evolves_trans; [apply evolves_print |].
      eapply evolves_list_dir; exact Ht.
    + injection H as <-. apply evolves_refl.
  - injection H as <-. apply evolves_handle_error.
Qed.

(** C7 fails on the code for the default target: with [-R] and no path
    argument, every run that returns, on every file system, starts
    with the header of the current directory twice, once from [main]
    and once from [list_dir], where C7 has exactly one header before
    each directory and a blank line before every header but the
    first. *)
Theorem default_target_header_twice os depth l a n h s' :
  ls_main os depth (mkOptions l a true n h) [] = Some s' ->
  exists rest, out s' = LHeader "." :: LHeader "." :: rest.
Proof.
  unfold ls_main. cbn [opt_l opt_a opt_R].
  destruct depth as [| depth]; [discriminate |].
  destruct (list_dir os (S depth) "." l a true _) as [s1 |] eqn:E;
    [| discriminate].
  intros H. injection H as <-.
  apply list_dir_header_first in E.
  assert (E' : evolves
                 (print (LHeader ".")
                    (print (LHeader ".")
                       (initial_state (mkOptions l a true n h))))
                 (if count_only s1 then print (LTotal (file_count s1)) s1
                  else s1)).
  { eapply evolves_trans; [exact E |].
    destruct (count_only s1); auto with evol. }
  destruct E' as (_ & [lines Hout] & _).
  exists lines. rewrite Hout. reflexivity.
Qed.

Lemma default_target_header_twice_witness :
  ls_main os_tree 2 only_R []
  = Some (mkState 0 0 false false
            [LHeader "."; LHeader "."; LEntry "a.txt"])
  /\ exists rest,
       [LHeader "."; LHeader "."; LEntry "a.txt"]
       = LHeader "." :: LHeader "." :: rest.
Proof.
  split; [reflexivity |].
  exact (default_target_header_twice os_tree 2 false false false false
           _ eq_refl).
Defined.

(** The whole output of [-R] without a path argument in a directory
    holding [a.txt]: the second header has no blank line before it. *)
Lemma recursive_default_target_output :
  ls_main os_tree 2 only_R []
  = Some (mkState 0 0 false false
            [LHeader "."; LHeader "."; LEntry "a.txt"]).
Proof. reflexivity. Qed.

(** The same with two directory arguments: each header appears twice. *)
Lemma recursive_two_targets_output :
  ls_main os_tree 3 only_R ["root/sub"; "."]
  = Some (mkState 0 0 false false
            [LHeader "root/sub"; LHeader "root/sub"; LEntry "b.txt"; LBlank;
             LHeader "."; LHeader "."; LEntry "a.txt"]).
Proof. reflexivity. Qed.

(** With one directory argument the headers are as C7 says: for the
    tree [root/{a.txt, sub/{b.txt}}] the walk visits [root], then
    [root/sub], one header each, a blank line before the second. *)
Lemma recursive_single_target_output :
  ls_main os_tree 3 only_R ["root"]
  = Some (mkState 0 0 false false
            [LHeader "root"; LEntry "a.txt"; LEntry "sub/"; LBlank;
             LHeader "root/sub"; LEntry "b.txt"]).
Proof. reflexivity. Qed.

(** * Further properties of the code *)

(** ** File types and permissions *)

Lemma file_type_exclusive (mode : Z) :
  (S_ISLNK mode = true -> S_ISDIR mode = false)
  /\ (S_ISREG mode = true -> S_ISDIR mode = false)
  /\ (S_ISLNK mode = true -> S_ISREG mode = false).
Proof.
  unfold S_ISDIR, S_ISREG, S_ISLNK.
  repeat split; intros H; apply Z.eqb_eq in H; rewrite H; reflexivity.
Qed.


(** X1: the type character of a long line is [d], [-] or [l] exactly
    for a directory, a regular file or a symbolic link, and [?] for
    everything else; the three tests exclude each other, so their
    order in [ftype_to_str] does not matter, and a symbolic link is
    never taken for a directory. *)
Theorem ftype_to_str_classifies (mode : Z) :
  (ftype_to_str mode = "d" <-> S_ISDIR mode = true)
  /\ (ftype_to_str mode = "-" <-> S_ISREG mode = true)
  /\ (ftype_to_str mode = "l" <-> S_ISLNK mode = true)
  /\ (ftype_to_str mode = "?" <->
      S_ISDIR mode = false /\ S_ISREG mode = false /\ S_ISLNK mode = false)
  /\ (S_ISLNK mode = true -> S_ISDIR mode = false)
  /\ (S_ISREG mode = true -> S_ISDIR mode = false).
Proof.
  unfold ftype_to_str, S_ISDIR, S_ISREG, S_ISLNK.
  destruct (Z.eqb_spec (Z.land mode S_IFMT) S_IFDIR) as [Ed | Ed];
    destruct (Z.eqb_spec (Z.land mode S_IFMT) S_IFREG) as [Er | Er];
    destruct (Z.eqb_spec (Z.land mode S_IFMT) S_IFLNK) as [El | El];
    try (rewrite Ed in Er; discriminate Er);
    try (rewrite Ed in El; discriminate El);
    try (rewrite Er in El; discriminate El);
    repeat split; intros; try reflexivity; try discriminate;
    repeat match goal with
           | H : _ /\ _ |- _ => destruct H
           end; discriminate.
Qed.

Lemma perm_char_low_bits (mode mask : Z) (ch : string) :
  Z.land 511 mask = mask ->
  PRINT_PERM_CHAR (Z.land mode 511) mask ch = PRINT_PERM_CHAR mode mask ch.
Proof.
  intros H. unfold PRINT_PERM_CHAR. now rewrite <- Z.land_assoc, H.
Qed.

Lemma perm_string_low_bits (mode : Z) :
  perm_string (Z.land mode 511) = perm_string mode.
Proof.
  unfold perm_string. now rewrite !perm_char_low_bits by reflexivity.
Qed.

Lemma low_bits_range (mode : Z) : 0 <= Z.land mode 511 < 512.
Proof.
  change 511 with (Z.ones 9). rewrite Z.land_ones by lia.
  change (2 ^ 9) with 512. apply Z.mod_pos_bound. lia.
Qed.

(** Checked by evaluation over the 512 permission settings. *)
Lemma perm_string_decodes (m : Z) :
  0 <= m < 512 ->
  perm_bits (perm_string m) = m /\ String.length (perm_string m) = 9%nat.
Proof.
  intros Hm.
  assert (Hall : forallb
                   (fun n => (perm_bits (perm_string (Z.of_nat n)) =? Z.of_nat n)
                             && (String.length (perm_string (Z.of_nat n)) =? 9)%nat)
                   (seq 0 (Z.to_nat 512)) = true) by (vm_compute; reflexivity).
  rewrite forallb_forall in Hall.
  specialize (Hall (Z.to_nat m)). rewrite Z2Nat.id in Hall by lia.
  apply andb_true_iff in Hall; [| apply in_seq; lia].
  destruct Hall as [H1 H2].
  split; [now apply Z.eqb_eq | now apply Nat.eqb_eq].
Qed.

(** X2: the nine permission characters always number nine, depend on
    the low nine bits of the mode only, and determine them: reading
    the dashes and letters back gives [mode & 0777], so two modes
    print the same permissions exactly when they agree on these
    bits. *)
Theorem perm_string_round_trip (mode mode' : Z) :
  perm_bits (perm_string mode) = Z.land mode 511
  /\ String.length (perm_string mode) = 9%nat
  /\ (perm_string mode = perm_string mode' <->
      Z.land mode 511 = Z.land mode' 511).
Proof.
  pose proof (perm_string_decodes _ (low_bits_range mode)) as [Hd Hl].
  pose proof (perm_string_decodes _ (low_bits_range mode')) as [Hd' _].
  rewrite perm_string_low_bits in Hd, Hl, Hd'.
  split; [exact Hd |]. split; [exact Hl |].
  split.
  - intros H. now rewrite <- Hd, <- Hd', H.
  - intros H. now rewrite <- (perm_string_low_bits mode), H,
      perm_string_low_bits.
Qed.

(** ** One entry *)

Lemma append_empty (a : string) : a ++ EmptyString = a.
Proof. induction a as [| c a IH]; cbn; [reflexivity | now rewrite IH]. Qed.

(** X3: in bare mode an entry that can be examined prints its name,
    followed by a slash exactly when it is a directory other than [.]
    and [..]; nothing else in the state changes.  The name column of
    the long format is the same text for everything but symbolic
    links, and a symbolic link in bare mode is its plain name, with
    neither arrow nor slash. *)
Theorem list_file_bare (os : os_model) (pathandname name : string)
    (s : state) (sb : stat) :
  count_only s = false ->
  lstat os pathandname = Ok sb ->
  list_file os pathandname name false s = print (LEntry (bare_name sb name)) s
  /\ (S_ISLNK (st_mode sb) = false ->
      name_column os pathandname name sb = " " ++ bare_name sb name)
  /\ (S_ISLNK (st_mode sb) = true -> bare_name sb name = name)
  /\ (S_ISDIR (st_mode sb) = true ->
      name <> "." -> name <> ".." -> bare_name sb name = name ++ "/").
Proof.
  intros Hc Hl. split; [| split; [| split]].
  - unfold list_file, test_file, is_dir. now rewrite Hc, Hl.
  - intros Hlnk. unfold name_column. now rewrite Hlnk.
  - intros Hlnk. unfold bare_name.
    rewrite (proj1 (file_type_exclusive (st_mode sb)) Hlnk).
    apply append_empty.
  - intros Hd H1 H2. unfold bare_name. rewrite Hd.
    apply String.eqb_neq in H1, H2. now rewrite H1, H2.
Qed.

Lemma list_file_bare_witness :
  list_file os_tree "root/sub" "sub" false (initial_state no_options)
  = print (LEntry "sub/") (initial_state no_options).
Proof.
  destruct (list_file_bare os_tree "root/sub" "sub"
              (initial_state no_options) dir_stat eq_refl eq_refl)
    as (H & _).
  exact H.
Defined.



(** X5: when an entry cannot be examined, bare and long mode do the
    same: no line for the entry, the one diagnostic [cannot access]
    with its path, the general-error bit and the cause bit of the
    failure; the counter is left alone. *)
Theorem list_file_stat_failure (os : os_model) (pathandname name : string)
    (list_long : bool) (s : state) (e : Z) :
  count_only s = false ->
  lstat os pathandname = Err e ->
  list_file os pathandname name list_long s
  = handle_error "cannot access" pathandname e s
  /\ out (list_file os pathandname name list_long s)
     = (out s ++ [LDiag "cannot access" pathandname e])%list
  /\ Z.testbit (err_code (list_file os pathandname name list_long s)) 6 = true
  /\ file_count (list_file os pathandname name list_long s) = file_count s.
Proof.
  intros Hc Hl.
  assert (E : list_file os pathandname name list_long s
              = handle_error "cannot access" pathandname e s).
  { unfold list_file, test_file. rewrite Hc, Hl. now destruct list_long. }
  rewrite E. split; [reflexivity |].
  split; [apply out_handle_error |].
  split; [| apply file_count_handle_error].
  rewrite err_code_handle_error, Z.lor_spec.
  replace (Z.testbit (Z.lor BIT_ERROR _) 6) with true; [apply orb_true_r |].
  destruct (e =? ENOENT); [| destruct ((e =? EACCES) || (e =? EPERM))];
    reflexivity.
Qed.

Lemma list_file_stat_failure_witness :
  list_file os_links "links/gone" "gone" true (initial_state only_l)
  = list_file os_links "links/gone" "gone" false (initial_state only_l).
Proof.
  destruct (list_file_stat_failure os_links "links/gone" "gone" true
              (initial_state only_l) ENOENT eq_refl eq_refl) as (H1 & _).
  destruct (list_file_stat_failure os_links "links/gone" "gone" false
              (initial_state only_l) ENOENT eq_refl eq_refl) as (H2 & _).
  now rewrite H1, H2.
Defined.

(** ** Human-readable sizes: the width of the column *)

Lemma length_pad_left (w : nat) (t : string) :
  String.length (pad_left w t) = Nat.max w (String.length t).
Proof.
  unfold pad_left. rewrite length_append.
  assert (H : forall n, String.length (spaces n) = n)
    by (induction n; cbn; congruence).
  rewrite H. lia.
Qed.

(** X6: for every file size from 0 up to the largest [long long], the
    human-readable text has at most 7 characters, so it always fits
    the 16-byte buffer and is never cut; the size column of a long
    line is then between 6 and 8 characters wide, since texts such as
    [1023.9K] exceed the 5 characters the format reserves. *)
Theorem format_size_human_width (size : Z) :
  0 <= size < 2 ^ 63 ->
  (1 <= String.length (format_size_human size 16) <= 7)%nat
  /\ (forall sb, st_size sb = size ->
        (6 <= String.length (size_column true sb) <= 8)%nat).
Proof.
  intros Hs.
  assert (Hlen : (1 <= String.length (format_size_human size 16) <= 7)%nat).
  { destruct (Z_lt_le_dec size 1024) as [Hsmall | Hlarge].
    - rewrite format_size_human_bytes by exact Hsmall.
      rewrite truncate_short
        by (pose proof (dec_length_small size ltac:(lia)); lia).
      pose proof (dec_length_small size ltac:(lia)).
      split; [| lia].
      assert (Hall : forallb
                       (fun n => (1 <=? String.length (dec (Z.of_nat n)))%nat)
                       (seq 0 (Z.to_nat 1024)) = true)
        by (vm_compute; reflexivity).
      rewrite forallb_forall in Hall.
      specialize (Hall (Z.to_nat size)). rewrite Z2Nat.id in Hall by lia.
      apply Nat.leb_le, Hall, in_seq. lia.
    - destruct (format_size_human_scaled size ltac:(lia))
        as (k & Hk & Hlo & Hhi & E).
      rewrite E, length_append.
      set (x := (inject_Z (double_of_long_long size)
                 / inject_Z (1024 ^ Z.of_nat k))%Q) in *.
      assert (Hx : (x < 1024)%Q).
      { destruct (Nat.eq_dec k 6) as [E6 | Hne]; [| apply Hhi; lia].
        subst x. rewrite E6.
        apply Qlt_shift_div_r; [reflexivity |].
        change 1024%Q with (inject_Z 1024).
        rewrite <- inject_Z_mult, <- Zlt_Qlt.
        pose proof (double_of_long_long_upper size ltac:(lia)) as Hup.
        change (2 ^ 63) with 9223372036854775808 in Hs.
        change (1024 * 1024 ^ Z.of_nat 6) with 1180591620717411303424. lia. }
      assert (Hx0 : (0 <= x)%Q)
        by (apply Qle_trans with (y := 1%Q); [discriminate | exact Hlo]).
      pose proof (fmt_tenths_length _ (tenths_bounds x Hx0 Hx)) as Hf.
      unfold fmt_1f. pose proof (unit_length k) as Hu.
      split; [| lia].
      unfold fmt_tenths. rewrite !length_append. cbn [String.length]. lia. }
  split; [exact Hlen |].
  intros sb Hsb. unfold size_column. rewrite Hsb.
  rewrite to_signed_small by (cbn; lia).
  cbn [append String.length]. rewrite length_pad_left. lia.
Qed.

Lemma format_size_human_width_witness :
  format_size_human 1048575 16 = "1024.0K"
  /\ (1 <= String.length (format_size_human 1048575 16) <= 7)%nat.
Proof.
  split; [vm_compute; reflexivity |].
  apply (format_size_human_width 1048575). lia.
Defined.

(** ** One directory, without recursion *)



Lemma list_dir_flat os depth d l a s :
  list_dir os (S depth) d l a false s
  = match opendir os d with
    | Err e => Some (handle_error "Error opening directory" d e s)
    | Ok entries => Some (list_entries os d l a entries s)
    end.
Proof.
  cbn [list_dir]. destruct (opendir os d) as [entries | e]; [| reflexivity].
  now rewrite scan_entries_flat.
Qed.





(** X8: with [-n] and without [-R], listing a directory that can be
    opened adds the number of its visible entries to the counter and
    does nothing else: no line is written and no error is recorded,
    also for entries that could not have been examined.  The run over
    one such directory prints the count as its only line and ends
    with status 0. *)
Theorem list_dir_counts_visible_entries (os : os_model) (depth : nat)
    (dirname : string) (l a : bool) (s : state) (entries : list string) :
  count_only s = true ->
  opendir os dirname = Ok entries ->
  list_dir os (S depth) dirname l a false s
  = Some (add_file_count
            (Z.of_nat (List.length (visible_entries a entries))) s)
  /\ (forall sb h,
         lstat os dirname = Ok sb -> S_ISDIR (st_mode sb) = true ->
         ls_main os (S depth) (mkOptions l a false true h) [dirname]
         = Some (mkState 0
                   (Z.of_nat (List.length (visible_entries a entries)))
                   true h
                   [LTotal (Z.of_nat
                              (List.length (visible_entries a entries)))])).
Proof.
  intros Hc Hopen. split.
  - rewrite list_dir_flat, Hopen. now rewrite list_entries_count_only.
  - intros sb h Hl Hd. unfold ls_main.
    cbn [list_targets List.length opt_l opt_a opt_R].
    unfold test_file, is_dir. rewrite Hl, Hd. cbn [negb].
    change (1 <? Z.of_nat 1) with false. cbv iota.
    rewrite list_dir_flat, Hopen.
    rewrite list_entries_count_only by reflexivity.
    reflexivity.
Qed.

Lemma list_dir_counts_visible_entries_witness :
  ls_main os_links 1 (mkOptions false false false true false) ["links"]
  = Some (mkState 0 4 true false [LTotal 4]).
Proof.
  destruct (list_dir_counts_visible_entries os_links 0 "links" false false
              (initial_state only_n)
              ["."; ".."; ".hidden"; "good"; "dangling"; "sub"; "gone"]
              eq_refl eq_refl) as (_ & H).
  exact (H dir_stat false eq_refl eq_refl).
Defined.

(** ** Which subdirectories the walk descends into *)

Lemma in_discovered_subdirs os d a entries p :
  In p (discovered_subdirs os d a entries) ->
  exists n,
    In n entries
    /\ n <> "." /\ n <> ".."
    /\ (a = false -> starts_with_dot n = false)
    /\ p = fullpath_of d n
    /\ lstat_is_dir os (fullpath_of d n) = true.
Proof.
  unfold discovered_subdirs, visible_entries. intros H.
  apply filter_In in H. destruct H as [H Hdir].
  apply in_map_iff in H. destruct H as (n & <- & H).
  apply filter_In in H. destruct H as [H Hdots].
  apply filter_In in H. destruct H as [Hin Hvis].
  exists n. unfold is_dot_or_dotdot in Hdots.
  apply negb_true_iff, orb_false_iff in Hdots. destruct Hdots as [H1 H2].
  apply String.eqb_neq in H1, H2.
  repeat split; try assumption.
  intros ->. cbn in Hvis. now apply negb_true_iff in Hvis.
Qed.

(** X9: the subdirectories kept for descent in recursive mode come
    from entries of the directory that are neither [.] nor [..], that
    are not hidden unless [-a] is given, and that [lstat] reports as
    directories, so never from a symbolic link, whatever it points to;
    without [-R] none is kept. *)
Theorem scan_entries_keeps_real_subdirs (os : os_model) (dirname : string)
    (l a : bool) (entries : list string) (s : state) :
  (forall p,
      In p (fst (scan_entries os dirname l a true entries ([], s))) ->
      exists n sb,
        In n entries
        /\ n <> "." /\ n <> ".."
        /\ (a = false -> starts_with_dot n = false)
        /\ p = truncate 255 (fullpath_of dirname n)
        /\ lstat os (fullpath_of dirname n) = Ok sb
        /\ S_ISDIR (st_mode sb) = true
        /\ S_ISLNK (st_mode sb) = false)
  /\ fst (scan_entries os dirname l a false entries ([], s)) = [].
Proof.
  split; [| now rewrite scan_entries_flat].
  intros p Hp. rewrite scan_entries_split in Hp. cbn [fst app] in Hp.
  apply in_firstn, in_map_iff in Hp. destruct Hp as (q & <- & Hq).
  apply in_discovered_subdirs in Hq.
  destruct Hq as (n & Hin & H1 & H2 & Hvis & -> & Hdir).
  unfold lstat_is_dir in Hdir.
  destruct (lstat os (fullpath_of dirname n)) as [sb |] eqn:Hl;
    [| discriminate].
  exists n, sb. repeat split; try assumption.
  destruct (S_ISLNK (st_mode sb)) eqn:Hlnk; [| reflexivity].
  rewrite (proj1 (file_type_exclusive (st_mode sb)) Hlnk) in Hdir.
  discriminate.
Qed.

Lemma scan_entries_keeps_real_subdirs_witness :
  fst (scan_entries os_links "links" false true true
         ["."; ".."; ".hidden"; "good"; "dangling"; "sub"; "gone"]
         ([], initial_state only_a))
  = ["links/sub"]
  /\ exists n sb,
       n <> "." /\ n <> ".."
       /\ "links/sub" = truncate 255 (fullpath_of "links" n)
       /\ lstat os_links (fullpath_of "links" n) = Ok sb
       /\ S_ISLNK (st_mode sb) = false.
Proof.
  split; [reflexivity |].
  destruct (proj1 (scan_entries_keeps_real_subdirs os_links "links" false true
                     ["."; ".."; ".hidden"; "good"; "dangling"; "sub"; "gone"]
                     (initial_state only_a))
              "links/sub" (or_introl eq_refl))
    as (n & sb & _ & H1 & H2 & _ & Hp & Hl & _ & Hlnk).
  exists n, sb. repeat split; assumption.
Defined.

(** ** The path arguments of [main] *)

Lemma bare_name_not_dir sb name :
  S_ISDIR (st_mode sb) = false -> bare_name sb name = name.
Proof. intros H. unfold bare_name. rewrite H. apply append_empty. Qed.

(** X10: a path argument that exists and is not a directory (a
    symbolic link to a directory included) is listed directly under
    the name given on the command line: no header, no directory is
    opened, and the run over it alone returns at any depth bound; in
    bare mode its only line is the argument itself and the status
    is 0. *)
Theorem file_target_is_listed_directly (os : os_model) (depth : nat)
    (arg : string) (sb : stat) :
  lstat os arg = Ok sb ->
  S_ISDIR (st_mode sb) = false ->
  (forall many l a R rest s,
      list_targets os depth many l a R (arg :: rest) s
      = list_targets os depth many l a R rest (list_file os arg arg l s))
  /\ (forall o,
         opt_n o = false ->
         ls_main os depth o [arg]
         = Some (list_file os arg arg (opt_l o) (initial_state o)))
  /\ (forall a R h,
         ls_main os depth (mkOptions false a R false h) [arg]
         = Some (mkState 0 0 false h [LEntry arg])).
Proof.
  intros Hl Hd.
  assert (Hstep : forall many l a R rest s,
             list_targets os depth many l a R (arg :: rest) s
             = list_targets os depth many l a R rest
                 (list_file os arg arg l s)).
  { intros. cbn [list_targets]. unfold test_file, is_dir.
    now rewrite Hl, Hd. }
  split; [exact Hstep |]. split.
  - intros o Hn. unfold ls_main. rewrite Hstep. cbn [list_targets].
    pose proof (evolves_list_file os arg arg (opt_l o) (initial_state o))
      as (_ & _ & Hc & _).
    rewrite Hc. cbn [initial_state count_only]. now rewrite Hn.
  - intros a R h. unfold ls_main. rewrite Hstep. cbn [list_targets opt_l].
    unfold list_file, test_file, is_dir.
    cbn [initial_state count_only opt_n]. rewrite Hl, Hd. cbn.
    rewrite append_empty. reflexivity.
Qed.

Lemma file_target_is_listed_directly_witness :
  ls_main os_links 0 no_options ["links/good"]
  = Some (mkState 0 0 false false [LEntry "links/good"]).
Proof.
  destruct (file_target_is_listed_directly os_links 0 "links/good" link_stat
              eq_refl eq_refl) as (_ & _ & H).
  exact (H false false false).
Defined.

(** X11: without [-R], a run with no path argument is the run with
    the single argument [.], provided [.] is a directory: same output,
    same counter, same exit status, at every depth bound. *)
Theorem default_target_is_dot (os : os_model) (depth : nat) (o : options)
    (sb : stat) :
  lstat os "." = Ok sb ->
  S_ISDIR (st_mode sb) = true ->
  opt_R o = false ->
  ls_main os depth o [] = ls_main os depth o ["."].
Proof.
  intros Hl Hd HR. unfold ls_main. cbn [list_targets List.length].
  unfold test_file, is_dir. rewrite Hl, Hd, HR. cbn [negb].
  change (1 <? Z.of_nat 1) with false. cbv iota.
  now destruct (list_dir os depth "." (opt_l o) (opt_a o) false
                  (initial_state o)).
Qed.

Lemma default_target_is_dot_witness :
  ls_main os_tree 1 no_options []
  = Some (mkState 0 0 false false [LEntry "a.txt"])
  /\ ls_main os_tree 1 no_options [] = ls_main os_tree 1 no_options ["."].
Proof.
  split; [reflexivity |].
  exact (default_target_is_dot os_tree 1 no_options dir_stat
           eq_refl eq_refl eq_refl).
Defined.



(** ** Properties of every step of a run

    Every change that a run makes to the state is one of six steps: a
    header, a blank line, a recorded failure, an increment of the
    counter in count-only mode, an entry line (with the bits of failed
    name lookups) outside count-only mode, and the final total.  A
    relation that holds of these steps and is a preorder holds between
    the initial and the final state of every run. *)

Section Stepwise.

Variable os : os_model.
Variable step : state -> state -> Prop.

Hypothesis step_refl : forall s, step s s.
Hypothesis step_trans :
  forall s1 s2 s3, step s1 s2 -> step s2 s3 -> step s1 s3.
Hypothesis step_header : forall d s, step s (print (LHeader d) s).
Hypothesis step_blank : forall s, step s (print LBlank s).
Hypothesis step_failure :
  forall what path e s, step s (handle_error what path e s).
Hypothesis step_count :
  forall s, count_only s = true -> step s (incr_file_count s).
Hypothesis step_entry :
  forall text bits s,
    count_only s = false -> bits = 0 \/ bits = 96 ->
    step s (print (LEntry text) (or_err_code bits s)).
Hypothesis step_total :
  forall s, count_only s = true -> step s (print (LTotal (file_count s)) s).

Lemma name_lookup_bits_cases sb :
  name_lookup_bits os sb = 0 \/ name_lookup_bits os sb = 96.
Proof.
  unfold name_lookup_bits.
  destruct (getpwuid os (st_uid sb)), (getgrgid os (st_gid sb)); auto.
Qed.

Lemma stepwise_list_file p n l s : step s (list_file os p n l s).
Proof.
  destruct (count_only s) eqn:Hc.
  - rewrite list_file_count_only by exact Hc. now apply step_count.
  - destruct (lstat os p) as [sb | e] eqn:Hl.
    + destruct l.
      * rewrite (list_file_long os p n s sb Hc Hl).
        apply step_entry; [exact Hc | apply name_lookup_bits_cases].
      * unfold list_file, test_file, is_dir. rewrite Hc, Hl. cbn [negb].
        rewrite <- (or_err_code_0 s) at 2.
        apply step_entry; [exact Hc | now left].
    + replace (list_file os p n l s)
        with (handle_error "cannot access" p e s);
        [apply step_failure |].
      unfold list_file, test_file. rewrite Hc, Hl. now destruct l.
Qed.

Lemma stepwise_scan_entries d l a R entries :
  forall acc, step (snd acc) (snd (scan_entries os d l a R entries acc)).
Proof.
  induction entries as [| n rest IH]; intros acc; cbn [scan_entries].
  - apply step_refl.
  - eapply step_trans; [| apply IH].
    destruct acc as [subs s]. unfold scan_entry. cbn [snd].
    destruct (negb a && starts_with_dot n); [apply step_refl |].
    pose proof (stepwise_list_file (fullpath_of d n) n l s) as H.
    destruct R; [| exact H].
    destruct ((n =? ".")%string || (n =? "..")%string); [exact H |].
    destruct (lstat_is_dir os (fullpath_of d n)); [| exact H].
    destruct (Z.of_nat (List.length subs) <? 1024); exact H.
Qed.

Lemma stepwise_for_each {A} (body : A -> state -> option state) l :
  (forall a s s', body a s = Some s' -> step s s') ->
  forall s s', for_each body l s = Some s' -> step s s'.
Proof.
  intros Hbody. induction l as [| a rest IH]; intros s s' H; cbn in H.
  - injection H as <-. apply step_refl.
  - destruct (body a s) as [s1 |] eqn:E; [| discriminate].
    eapply step_trans; [eapply Hbody; eassumption | now apply IH].
Qed.

Lemma stepwise_list_dir depth :
  forall d l a R s s',
    list_dir os depth d l a R s = Some s' -> step s s'.
Proof.
  induction depth as [| depth IH]; intros d l a R s s' H; [discriminate |].
  cbn [list_dir] in H.
  set (s0 := if R then print (LHeader d) s else s) in H.
  assert (H0 : step s s0)
    by (subst s0; destruct R; [apply step_header | apply step_refl]).
  eapply step_trans; [exact H0 |].
  destruct (opendir os d) as [entries | e].
  - pose proof (stepwise_scan_entries d l a R entries ([], s0)) as H1.
    destruct (scan_entries os d l a R entries ([], s0)) as [subs s1].
    cbn [snd] in H1.
    eapply step_trans; [exact H1 |].
    destruct (R && (0 <? Z.of_nat (List.length subs))).
    + eapply stepwise_for_each; [| exact H].
      intros sub t t' Ht. cbv beta in Ht.
      eapply step_trans; [apply step_blank |].
      eapply IH; exact Ht.
    + injection H as <-. apply step_refl.
  - injection H as <-. apply step_failure.
Qed.

Lemma stepwise_list_targets depth many l a R args :
  forall s s',
    list_targets os depth many l a R args s = Some s' -> step s s'.
Proof.
  induction args as [| arg rest IH]; intros s s' H; cbn [list_targets] in H.
  - injection H as <-. apply step_refl.
  - unfold test_file, is_dir in H.
    destruct (lstat os arg) as [sb | e]; cbn [negb] in H.
    + destruct (S_ISDIR (st_mode sb)).
      * destruct (list_dir os depth arg l a R
                    (if many then print (LHeader arg) s else s))
          as [s3 |] eqn:E; [| discriminate].
        apply stepwise_list_dir in E.
        apply step_trans
          with (s2 := if many then print (LHeader arg) s else s);
          [destruct many; [apply step_header | apply step_refl] |].
        eapply step_trans; [exact E |].
        eapply step_trans; [| eapply IH; exact H].
        destruct rest; [apply step_refl | apply step_blank].
      * eapply step_trans; [apply stepwise_list_file | eapply IH; exact H].
    + eapply step_trans; [apply step_failure | eapply IH; exact H].
Qed.

Lemma stepwise_ls_main depth o args s' :
  ls_main os depth o args = Some s' -> step (initial_state o) s'.
Proof.
  unfold ls_main. intros H.
  destruct args as [| arg rest].
  - destruct (list_dir os depth "." (opt_l o) (opt_a o) (opt_R o)
                (if opt_R o then print (LHeader ".") (initial_state o)
                 else initial_state o)) as [s1 |] eqn:E; [| discriminate].
    injection H as <-. apply stepwise_list_dir in E.
    apply step_trans
      with (s2 := if opt_R o then print (LHeader ".") (initial_state o)
                  else initial_state o);
      [destruct (opt_R o); [apply step_header | apply step_refl] |].
    eapply step_trans; [exact E |].
    destruct (count_only s1) eqn:Hc; [now apply step_total | apply step_refl].
  - destruct (list_targets os depth
                (1 <? Z.of_nat (List.length (arg :: rest)))
                (opt_l o) (opt_a o) (opt_R o) (arg :: rest)
                (initial_state o)) as [s1 |] eqn:E; [| discriminate].
    injection H as <-. apply stepwise_list_targets in E.
    eapply step_trans; [exact E |].
    destruct (count_only s1) eqn:Hc; [now apply step_total | apply step_refl].
Qed.

End Stepwise.

(** ** The exit status *)

Lemma exit_statuses_or (e b : Z) :
  In e exit_statuses -> In b [0; 72; 80; 96] -> In (Z.lor e b) exit_statuses.
Proof.
  unfold exit_statuses. cbn [In]. intros He Hb.
  repeat match goal with
         | H : _ \/ _ |- _ => destruct H as [<- | H]
         | H : False |- _ => contradiction
         end; cbn; tauto.
Qed.

Lemma keeps_status_failure what path e s :
  keeps_status s (handle_error what path e s).
Proof.
  unfold keeps_status. intros H. rewrite err_code_handle_error.
  apply exit_statuses_or; [exact H |].
  destruct (e =? ENOENT); [| destruct ((e =? EACCES) || (e =? EPERM))];
    cbn; tauto.
Qed.

Lemma ls_main_keeps_status os depth o args s' :
  ls_main os depth o args = Some s' -> In (err_code s') exit_statuses.
Proof.
  intros H.
  apply (stepwise_ls_main os keeps_status) in H.
  - apply H. cbn. tauto.
  - intros s Hs. exact Hs.
  - intros s1 s2 s3 H1 H2 Hs. apply H2, H1, Hs.
  - intros d s Hs. exact Hs.
  - intros s Hs. exact Hs.
  - apply keeps_status_failure.
  - intros s _ Hs. exact Hs.
  - intros text bits s _ Hbits Hs. cbn [err_code print or_err_code].
    apply exit_statuses_or; [exact Hs |].
    destruct Hbits as [-> | ->]; cbn; tauto.
  - intros s _ Hs. exact Hs.
Qed.

(** X13: every run that returns ends with one of the statuses 0, 72,
    80, 88, 96, 104, 112, 120: a status other than 0 always has the
    general-error bit together with at least one of the three cause
    bits, and no bit outside these four is ever set. *)
Theorem exit_status_values (os : os_model) (depth : nat) (o : options)
    (args : list string) (s' : state) :
  ls_main os depth o args = Some s' ->
  In (err_code s') exit_statuses
  /\ (err_code s' <> 0 ->
      Z.testbit (err_code s') 6 = true
      /\ Z.land (err_code s')
           (Z.lor BIT_NOT_FOUND (Z.lor BIT_PERMISSION BIT_OTHER)) <> 0)
  /\ Z.land (err_code s') 120 = err_code s'.
Proof.
  intros H. apply ls_main_keeps_status in H.
  split; [exact H |].
  unfold exit_statuses in H. cbn [In] in H.
  repeat match goal with
         | H : _ \/ _ |- _ => destruct H as [<- | H]
         | H : False |- _ => contradiction
         end;
    (split; [intros Hne;
             first [ exfalso; apply Hne; reflexivity
                   | split; [reflexivity | discriminate] ]
            | reflexivity]).
Qed.

Lemma exit_status_values_witness :
  exists s',
    ls_main os_links 1 only_l ["links"; "nope"] = Some s'
    /\ err_code s' = 72
    /\ In (err_code s') exit_statuses.
Proof.
  eexists. split; [reflexivity |]. split; [reflexivity |].
  apply (exit_status_values os_links 1 only_l ["links"; "nope"]).
  reflexivity.
Defined.

Lemma ls_main_reports_failures os depth o args s' :
  ls_main os depth o args = Some s' ->
  err_code s' = 0 ->
  forallb (fun l => negb (is_diag_line l)) (out s') = true.
Proof.
  intros H H0.
  apply (stepwise_ls_main os reports_failures) in H.
  - destruct (H H0) as (_ & lines & Hout & Hlines).
    now rewrite Hout.
  - intros s Hs. split; [exact Hs |]. exists []. now rewrite app_nil_r.
  - intros s1 s2 s3 H1 H2 Hs.
    destruct (H2 Hs) as (Hs2 & l2 & Ho2 & Hl2).
    destruct (H1 Hs2) as (Hs1 & l1 & Ho1 & Hl1).
    split; [exact Hs1 |]. exists (l1 ++ l2)%list.
    now rewrite Ho2, Ho1, forallb_app, Hl1, Hl2, app_assoc.
  - intros d s Hs. split; [exact Hs |]. now exists [LHeader d].
  - intros s Hs. split; [exact Hs |]. now exists [LBlank].
  - intros what path e s Hs. exfalso.
    rewrite err_code_handle_error in Hs.
    apply Z.lor_eq_0_iff in Hs. destruct Hs as [_ Hs].
    apply Z.lor_eq_0_iff in Hs. destruct Hs as [Hs _]. discriminate Hs.
  - intros s _ Hs. split; [exact Hs |]. exists []. cbn.
    now rewrite app_nil_r.
  - intros text bits s _ _ Hs. cbn [err_code print or_err_code] in Hs.
    apply Z.lor_eq_0_iff in Hs. destruct Hs as [Hs _].
    split; [exact Hs |]. now exists [LEntry text].
  - intros s _ Hs. split; [exact Hs |].
    now exists [LTotal (file_count s)].
Qed.

(** X14: no failure is dropped from the exit status: a run that ends
    with status 0 has written no diagnostic line, and a run that has
    written one ends with the general-error bit set. *)
Theorem diagnostics_reach_exit_status (os : os_model) (depth : nat)
    (o : options) (args : list string) (s' : state) :
  ls_main os depth o args = Some s' ->
  (err_code s' = 0 ->
   forallb (fun l => negb (is_diag_line l)) (out s') = true)
  /\ (existsb is_diag_line (out s') = true ->
      Z.testbit (err_code s') 6 = true).
Proof.
  intros H. split; [now apply ls_main_reports_failures with (1 := H) |].
  intros Hdiag.
  pose proof (ls_main_keeps_status os depth o args s' H) as Hst.
  destruct (Z.eq_dec (err_code s') 0) as [H0 | Hne].
  - pose proof (ls_main_reports_failures os depth o args s' H H0) as Hno.
    apply existsb_exists in Hdiag. destruct Hdiag as (x & Hin & Hx).
    rewrite forallb_forall in Hno. specialize (Hno x Hin).
    rewrite Hx in Hno. discriminate.
  - unfold exit_statuses in Hst. cbn [In] in Hst.
    repeat match goal with
           | H : _ \/ _ |- _ => destruct H as [E | H]
           | H : False |- _ => contradiction
           end; rewrite <- E in *; try reflexivity; contradiction.
Qed.

Lemma diagnostics_reach_exit_status_witness :
  exists s',
    ls_main os_links 1 no_options ["links"] = Some s'
    /\ existsb is_diag_line (out s') = true
    /\ Z.testbit (err_code s') 6 = true.
Proof.
  eexists. split; [reflexivity |]. split; [reflexivity |].
  apply (diagnostics_reach_exit_status os_links 1 no_options ["links"]);
    reflexivity.
Defined.

Lemma ls_main_counter_idle os depth o args s' :
  ls_main os depth o args = Some s' -> counter_idle (initial_state o) s'.
Proof.
  apply (stepwise_ls_main os counter_idle).
  - intros s. split; [reflexivity |]. split; [reflexivity |].
    intros _. split; [reflexivity |].
    exists []. now rewrite app_nil_r.
  - intros s1 s2 s3 (C1 & U1 & H1) (C2 & U2 & H2).
    split; [congruence |]. split; [congruence |]. intros Hc.
    destruct (H1 Hc) as (F1 & l1 & O1 & T1).
    destruct (H2 ltac:(congruence)) as (F2 & l2 & O2 & T2).
    split; [congruence |]. exists (l1 ++ l2)%list.
    now rewrite O2, O1, forallb_app, T1, T2, app_assoc.
  - intros d s. split; [reflexivity |]. split; [reflexivity |].
    intros _. split; [reflexivity |]. now exists [LHeader d].
  - intros s. split; [reflexivity |]. split; [reflexivity |].
    intros _. split; [reflexivity |]. now exists [LBlank].
  - intros what path e s.
    split; [apply count_only_handle_error |].
    split; [unfold handle_error;
            destruct (e =? ENOENT);
            [| destruct ((e =? EACCES) || (e =? EPERM))]; reflexivity |].
    intros _. split; [apply file_count_handle_error |].
    exists [LDiag what path e]. split; [apply out_handle_error | reflexivity].
  - intros s Hc. split; [reflexivity |]. split; [reflexivity |].
    cbn [count_only incr_file_count]. congruence.
  - intros text bits s _ _. split; [reflexivity |]. split; [reflexivity |].
    intros _. split; [reflexivity |]. now exists [LEntry text].
  - intros s Hc. split; [reflexivity |]. split; [reflexivity |]. congruence.
Qed.

(** X15: a run never changes its two mode flags; and without [-n] it
    never touches the counter and never prints a total. *)
Theorem flags_and_counter_are_stable (os : os_model) (depth : nat)
    (o : options) (args : list string) (s' : state) :
  ls_main os depth o args = Some s' ->
  count_only s' = opt_n o
  /\ human_readable s' = opt_h o
  /\ (opt_n o = false ->
      file_count s' = 0
      /\ forallb (fun l => negb (is_total_line l)) (out s') = true).
Proof.
  intros H. apply ls_main_counter_idle in H.
  destruct H as (Hc & Hh & Hidle).
  split; [exact Hc |]. split; [exact Hh |].
  intros Hn. destruct (Hidle Hn) as (Hf & lines & Hout & Hlines).
  split; [exact Hf |]. now rewrite Hout.
Qed.

Lemma flags_and_counter_are_stable_witness :
  exists s',
    ls_main os_links 2 only_R ["links"] = Some s'
    /\ count_only s' = false /\ file_count s' = 0.
Proof.
  eexists. split; [reflexivity |].
  destruct (flags_and_counter_are_stable os_links 2 only_R ["links"] _
              eq_refl) as (Hc & _ & Hf).
  split; [exact Hc | apply Hf; reflexivity].
Defined.

(** ** Count-only mode and the long format *)

Lemma scan_entries_count_only os d l l' a R entries :
  forall acc,
    count_only (snd acc) = true ->
    scan_entries os d l a R entries acc = scan_entries os d l' a R entries acc.
Proof.
  induction entries as [| n rest IH]; intros acc Hc; [reflexivity |].
  cbn [scan_entries].
  assert (E : scan_entry os d l a R n acc = scan_entry os d l' a R n acc).
  { destruct acc as [subs s]. cbn [snd] in Hc. unfold scan_entry.
    now rewrite !(list_file_count_only os _ n _ s Hc). }
  rewrite E. apply IH.
  pose proof (evolves_scan_entry os d l' a R n acc) as (_ & _ & H & _).
  congruence.
Qed.

Lemma for_each_count_only {A} (b1 b2 : A -> state -> option state) l :
  (forall a s, count_only s = true -> b1 a s = b2 a s) ->
  (forall a s s', b2 a s = Some s' -> count_only s' = count_only s) ->
  forall s, count_only s = true -> for_each b1 l s = for_each b2 l s.
Proof.
  intros Hext Hflag. induction l as [| a rest IH]; intros s Hc;
    [reflexivity |].
  cbn [for_each]. rewrite (Hext a s Hc).
  destruct (b2 a s) as [s1 |] eqn:E; [| reflexivity].
  apply IH. rewrite (Hflag a s s1 E). exact Hc.
Qed.

Lemma list_dir_count_only os depth l l' :
  forall d a R s,
    count_only s = true ->
    list_dir os depth d l a R s = list_dir os depth d l' a R s.
Proof.
  induction depth as [| depth IH]; intros d a R s Hc; [reflexivity |].
  cbn [list_dir].
  destruct (opendir os d) as [entries | e]; [| reflexivity].
  set (s0 := if R then print (LHeader d) s else s).
  assert (Hc0 : count_only s0 = true) by (subst s0; now destruct R).
  rewrite (scan_entries_count_only os d l l' a R entries ([], s0) Hc0).
  pose proof (evolves_scan_entries os d l' a R entries ([], s0))
    as (_ & _ & Hc1 & _).
  destruct (scan_entries os d l' a R entries ([], s0)) as [subs s1].
  cbn [snd] in Hc1.
  destruct (R && (0 <? Z.of_nat (List.length subs))); [| reflexivity].
  apply for_each_count_only; [| | congruence].
  - intros sub t Ht. now apply IH.
  - intros sub t t' Ht. cbv beta in Ht.
    apply evolves_list_dir in Ht. now destruct Ht as (_ & _ & H & _).
Qed.

Lemma list_targets_count_only os depth many l l' a R args :
  forall s,
    count_only s = true ->
    list_targets os depth many l a R args s
    = list_targets os depth many l' a R args s.
Proof.
  induction args as [| arg rest IH]; intros s Hc; [reflexivity |].
  cbn [list_targets]. unfold test_file, is_dir.
  destruct (lstat os arg) as [sb | e]; cbn [negb].
  - destruct (S_ISDIR (st_mode sb)).
    + set (s0 := if many then print (LHeader arg) s else s).
      assert (Hc0 : count_only s0 = true) by (subst s0; now destruct many).
      rewrite (list_dir_count_only os depth l l' arg a R s0 Hc0).
      destruct (list_dir os depth arg l' a R s0) as [s1 |] eqn:E;
        [| reflexivity].
      apply IH. apply evolves_list_dir in E.
      destruct E as (_ & _ & H & _). destruct rest; cbn; congruence.
    + rewrite !(list_file_count_only os arg arg _ s Hc). now apply IH.
  - apply IH. now rewrite count_only_handle_error.
Qed.

(** X16: [-n] overrides [-l]: in count-only mode the long-format
    option changes nothing at all, neither the total, nor the output,
    nor the exit status, for any arguments and any file system. *)
Theorem count_only_overrides_long (os : os_model) (depth : nat)
    (l l' a R h : bool) (args : list string) :
  ls_main os depth (mkOptions l a R true h) args
  = ls_main os depth (mkOptions l' a R true h) args.
Proof.
  unfold ls_main. cbn [opt_l opt_a opt_R opt_n opt_h initial_state].
  destruct args as [| arg rest].
  - now rewrite (list_dir_count_only os depth l l' "." a R)
      by (now destruct R).
  - now rewrite (list_targets_count_only os depth _ l l' a R (arg :: rest))
      by reflexivity.
Qed.

(** ** The option loop *)

Lemma occurs_cons (c : ascii) (opt : Z) (rest : list Z) :
  occurs c (opt :: rest) = (opt =? char_code c) || occurs c rest.
Proof. unfold occurs. cbn [existsb]. now rewrite Z.eqb_sym. Qed.

Lemma existsb_permutation {A} (f : A -> bool) (l l' : list A) :
  Permutation l l' -> existsb f l = existsb f l'.
Proof.
  induction 1 as [| x l l' _ IH | x y l | l l' l'' _ IH1 _ IH2]; cbn.
  - reflexivity.
  - now rewrite IH.
  - now destruct (f x), (f y).
  - congruence.
Qed.

Lemma option_loop_without_help (opts : list Z) :
  forall o unimplemented,
    existsb (Z.eqb HELP) opts = false ->
    option_loop opts o unimplemented
    = (Some (mkOptions (opt_l o || occurs "l" opts)
                       (opt_a o || occurs "a" opts)
                       (opt_R o || occurs "R" opts)
                       (opt_n o || occurs "n" opts)
                       (opt_h o || occurs "h" opts)),
       (unimplemented
        ++ filter (fun opt => negb (known_option opt)) opts)%list).
Proof.
  induction opts as [| opt rest IH]; intros o msgs Hh.
  - cbn. rewrite !orb_false_r, app_nil_r. now destruct o.
  - cbn [existsb] in Hh. apply orb_false_iff in Hh. destruct Hh as [Hh Hrest].
    rewrite Z.eqb_sym in Hh.
    cbn [option_loop filter]. rewrite Hh, !occurs_cons. unfold known_option.
    cbn [existsb].
    destruct (Z.eqb_spec opt (char_code "1")) as [-> | N1];
      [rewrite IH by exact Hrest; cbn; reflexivity |].
    destruct (Z.eqb_spec opt (char_code "a")) as [-> | Na];
      [rewrite IH by exact Hrest; cbn; now rewrite !orb_true_r |].
    destruct (Z.eqb_spec opt (char_code "l")) as [-> | Nl];
      [rewrite IH by exact Hrest; cbn; now rewrite !orb_true_r |].
    destruct (Z.eqb_spec opt (char_code "R")) as [-> | NR];
      [rewrite IH by exact Hrest; cbn; now rewrite !orb_true_r |].
    destruct (Z.eqb_spec opt (char_code "n")) as [-> | Nn];
      [rewrite IH by exact Hrest; cbn; now rewrite !orb_true_r |].
    destruct (Z.eqb_spec opt (char_code "h")) as [-> | Nh];
      [rewrite IH by exact Hrest; cbn; now rewrite !orb_true_r |].
    rewrite IH by exact Hrest. cbn [orb negb].
    now rewrite <- app_assoc.
Qed.

Lemma option_loop_app (before rest : list Z) :
  forall o unimplemented,
    option_loop (before ++ rest) o unimplemented
    = match option_loop before o unimplemented with
      | (Some o', unimplemented') => option_loop rest o' unimplemented'
      | (None, unimplemented') => (None, unimplemented')
      end.
Proof.
  induction before as [| opt before IH]; intros o msgs; [reflexivity |].
  cbn [app option_loop].
  repeat match goal with
         | |- context [if ?b then _ else _] => destruct b; [now rewrite ?IH |]
         end.
  apply IH.
Qed.

(** X17: the option loop only ever switches flags on.  When [--help]
    is not among the options, each flag ends up set exactly if it was
    set before or its letter occurs, [-1] changes nothing, and the
    values reported as unimplemented are the unknown ones in their
    order; so neither the order of the options nor their repetition
    matters for the flags.  When [--help] occurs, the loop ends there
    (the process exits with status 0), whatever follows it. *)
Theorem option_loop_spec (opts : list Z) (o : options)
    (unimplemented : list Z) :
  (existsb (Z.eqb HELP) opts = false ->
   option_loop opts o unimplemented
   = (Some (mkOptions (opt_l o || occurs "l" opts)
                      (opt_a o || occurs "a" opts)
                      (opt_R o || occurs "R" opts)
                      (opt_n o || occurs "n" opts)
                      (opt_h o || occurs "h" opts)),
      (unimplemented
       ++ filter (fun opt => negb (known_option opt)) opts)%list))
  /\ (forall opts',
         Permutation opts opts' ->
         existsb (Z.eqb HELP) opts = false ->
         fst (option_loop opts' o unimplemented)
         = fst (option_loop opts o unimplemented))
  /\ (existsb (Z.eqb HELP) opts = false ->
      fst (option_loop (opts ++ opts) o unimplemented)
      = fst (option_loop opts o unimplemented))
  /\ (existsb (Z.eqb HELP) opts = false ->
      forall after,
        option_loop (opts ++ HELP :: after) o unimplemented
        = (None,
           (unimplemented
            ++ filter (fun opt => negb (known_option opt)) opts)%list)).
Proof.
  split; [apply option_loop_without_help |].
  split; [| split].
  - intros opts' Hperm Hh.
    assert (Hh' : existsb (Z.eqb HELP) opts' = false)
      by (now rewrite <- (existsb_permutation _ _ _ Hperm)).
    rewrite !option_loop_without_help by assumption.
    cbn [fst]. unfold occurs.
    now rewrite !(existsb_permutation _ _ _ Hperm).
  - intros Hh.
    rewrite option_loop_app, !option_loop_without_help by assumption.
    cbn [fst opt_l opt_a opt_R opt_n opt_h].
    now rewrite <- !orb_assoc, !orb_diag.
  - intros Hh after.
    rewrite option_loop_app, option_loop_without_help by assumption.
    cbn [option_loop]. now rewrite Z.eqb_refl.
Qed.

Lemma option_loop_spec_witness :
  option_loop [char_code "l"; 63; char_code "R"; char_code "l"]
    default_options []
  = (Some (mkOptions true false true false false), [63])
  /\ fst (option_loop [char_code "R"; char_code "l"; char_code "l"; 63]
            default_options [])
     = Some (mkOptions true false true false false).
Proof.
  destruct (option_loop_spec [char_code "l"; 63; char_code "R"; char_code "l"]
              default_options []) as (H1 & H2 & _).
  split.
  - rewrite H1 by reflexivity. reflexivity.
  - rewrite (H2 [char_code "R"; char_code "l"; char_code "l"; 63]).
    + rewrite H1 by reflexivity. reflexivity.
    + apply perm_trans
        with (l' := [63; char_code "l"; char_code "R"; char_code "l"]);
        [apply perm_swap |].
      apply perm_trans
        with (l' := [63; char_code "R"; char_code "l"; char_code "l"]);
        [apply perm_skip, perm_swap |].
      apply perm_trans
        with (l' := [char_code "R"; 63; char_code "l"; char_code "l"]);
        [apply perm_swap |].
      apply perm_skip.
      apply perm_trans with (l' := [char_code "l"; 63; char_code "l"]);
        [apply perm_swap | apply perm_skip, perm_swap].
    + reflexivity.
Defined.

(** ** Edge cases of the walk *)

(** X18: a directory that can be opened and has no visible entry
    (empty, or holding hidden entries only while [-a] is off) is
    listed without any entry line and without descent: in recursive
    mode the walk writes the header alone, otherwise nothing; the
    state is otherwise untouched, in count-only mode too. *)
Theorem list_dir_without_visible_entries (os : os_model) (depth : nat)
    (dirname : string) (l a R : bool) (s : state) (entries : list string) :
  opendir os dirname = Ok entries ->
  visible_entries a entries = [] ->
  list_dir os (S depth) dirname l a R s
  = Some (if R then print (LHeader dirname) s else s).
Proof.
  intros Hopen Hvis. destruct R.
  - rewrite (list_dir_unfold os depth dirname l a s entries Hopen).
    unfold stored_subdirs, discovered_subdirs, list_entries.
    rewrite Hvis. reflexivity.
  - rewrite list_dir_flat, Hopen. unfold list_entries.
    now rewrite Hvis.
Qed.

Lemma list_dir_without_visible_entries_witness :
  list_dir os_links 1 "links/sub" true false true (initial_state only_R)
  = Some (print (LHeader "links/sub") (initial_state only_R)).
Proof.
  exact (list_dir_without_visible_entries os_links 0 "links/sub" true false
           true (initial_state only_R) [] eq_refl eq_refl).
Defined.

(** ** Owner and group names *)

Lemma length_spaces (n : nat) : String.length (spaces n) = n.
Proof. induction n; cbn; congruence. Qed.

(** X19: when the owner and the group of an entry both have a name
    shorter than the 32-byte buffers, the long line carries the two
    names in full, each left-aligned and padded with spaces to eight
    characters (longer names widen the column), and listing the entry
    leaves the exit status as it was. *)
Theorem list_file_resolved_names (os : os_model) (pathandname name : string)
    (s : state) (sb : stat) (owner group : string) :
  count_only s = false ->
  lstat os pathandname = Ok sb ->
  getpwuid os (st_uid sb) = Some owner ->
  getgrgid os (st_gid sb) = Some group ->
  (String.length owner < 32)%nat ->
  (String.length group < 32)%nat ->
  list_file os pathandname name true s
  = print (LEntry (mode_columns sb
                   ++ (" " ++ owner ++ spaces (8 - String.length owner))
                   ++ (" " ++ group ++ spaces (8 - String.length group))
                   ++ size_column (human_readable s) sb
                   ++ date_column os sb
                   ++ name_column os pathandname name sb)) s
  /\ String.length (owner_column os sb)
     = S (Nat.max 8 (String.length owner))
  /\ String.length (group_column os sb)
     = S (Nat.max 8 (String.length group)).
Proof.
  intros Hc Hl Hu Hg Hlu Hlg.
  rewrite (list_file_long os pathandname name s sb Hc Hl).
  unfold name_lookup_bits, long_line, owner_column, group_column, id_column.
  rewrite Hu, Hg, or_err_code_0, !truncate_short by lia.
  unfold pad_right.
  split; [reflexivity |].
  cbn [append String.length]. rewrite !length_append, !length_spaces.
  split; f_equal; lia.
Qed.

Lemma list_file_resolved_names_witness :
  list_file os_tree "root/a.txt" "a.txt" true (initial_state only_l)
  = print (LEntry "-rw-r--r-- 1 alice    staff        1536 %b %e %H:%M a.txt")
          (initial_state only_l).
Proof.
  destruct (list_file_resolved_names os_tree "root/a.txt" "a.txt"
              (initial_state only_l) file_stat "alice" "staff"
              eq_refl eq_refl eq_refl eq_refl) as (H & _).
  - cbn. lia.
  - cbn. lia.
  - exact H.
Defined.
